(** * openhtf.exe : the TestExecutor, its worker procedure and its cleanup stack

    A shallow embedding of [src/openhtf/exe/__init__.py].  The executor object is a
    record of its Python attributes; its methods are computations in a
    state-and-exception monad over that record; the worker thread
    [_ThreadProc] is a program counter over the statements of the source, so
    that calls of the controller ([Start], [Stop], [Finalize], [Wait],
    [GetState]) and asynchronous exceptions can be interleaved with it. *)

From Stdlib Require Import List ZArith Bool Lia String Arith.
Import ListNotations.

Set Implicit Arguments.

(** ** Python values *)

(** An instance attribute is either never assigned (reading it raises
    AttributeError) or assigned; the value [None] is [Assigned None]. *)
Inductive attr (A : Type) : Type :=
| Unassigned
| Assigned (v : A).
Arguments Unassigned {A}.
Arguments Assigned {A} v.

(** Exceptions that travel through the executor.  [TestStopError] and
    [UnfinalizedTestError] are declared in the source (lines 41-46); the
    others come from Python and from the collaborators; [StartTriggerError]
    stands for whatever the start trigger raises. *)
Inductive exn : Type :=
| AttributeError
| RuntimeError
| KeyboardInterrupt
| TestStopError
| UnfinalizedTestError
| TestAlreadyFinalized
| PlugInitError
| ThreadTerminationError
| StartTriggerError.

(** ** Collaborators *)

(** Modelled from the spec: [test_record.Outcome] (openhtf/io/test_record.py is
    not in src/), the enumerated terminal result of a run. *)
Inductive Outcome : Type := PASS | FAIL | ERROR | ABORTED.

(** Modelled from the spec: a phase outcome as the phase-execution engine
    produces it (openhtf/exe/phase_executor.py is not in src/).  The only thing
    the executor reads off it is whether it yields a final status, in which
    case the test stops early.  Whether the TestState, handed such an outcome,
    also finalizes itself is said neither by the spec nor by src/:
    [finalizes] leaves it open, outcome by outcome. *)
Record PhaseOutcome : Type := {
  final_status : option Outcome;
  finalizes : bool
}.

Record PhaseOptions : Type := { timeout_s : option Z }.

(** Modelled from the spec: [openhtf.PhaseDescriptor], a unit of test logic
    with a timeout option.  [phase_yields] stands for the wrapped function,
    by the outcome it is written to give; what the engine answers in a run
    is a matter of the run, see [engine_answers]. *)
Record PhaseDescriptor : Type := {
  phase_name : string;
  options : PhaseOptions;
  phase_yields : PhaseOutcome
}.

(** What a caller may hand over as a phase: a bare function or a descriptor. *)
Inductive PhaseArg : Type :=
| PlainFunc (name : string) (yields : PhaseOutcome)
| Described (p : PhaseDescriptor).

(** Modelled from the spec: [PhaseDescriptor.WrapOrCopy], which wraps a bare
    function in a fresh descriptor (no timeout option) and copies a
    descriptor, keeping its options. *)
Definition WrapOrCopy (f : PhaseArg) : PhaseDescriptor :=
  match f with
  | PlainFunc n y =>
      {| phase_name := n; options := {| timeout_s := None |}; phase_yields := y |}
  | Described p => p
  end.

(** [options.timeout_s = v] on a descriptor. *)
Definition set_timeout_s (v : Z) (p : PhaseDescriptor) : PhaseDescriptor :=
  {| phase_name := phase_name p;
     options := {| timeout_s := Some v |};
     phase_yields := phase_yields p |}.

(** [conf.Declare('teardown_timeout_s', default_value=3, ...)] (line 37): the
    setting, when given, else the declared default. *)
Record Conf : Type := { teardown_timeout_s_setting : option Z }.

Definition teardown_timeout_s (c : Conf) : Z :=
  match teardown_timeout_s_setting c with
  | Some v => v
  | None => 3%Z
  end.

(** What the lazy sequence of [ExecutePhases] does when the worker asks it
    for its next element: it yields an outcome, or it never answers (a phase
    that blocks forever).  When nothing is left, the sequence ends. *)
Inductive EngineAnswer : Type :=
| Yields (po : PhaseOutcome)
| NeverAnswers.

(** A test descriptor, and with it how the collaborators behave in the run
    of this test, so that a run is fixed by its schedule: whether
    [InitializePlugs] raises, and what the sequence of [ExecutePhases]
    answers, in order.  The answers are any finite list: the spec says no
    more of the sequence than lazy, finite, non-restartable, so they are not
    tied to [phases]. *)
Record TestDescriptor : Type := {
  test_name : string;
  phases : list PhaseDescriptor;
  plug_init_raises : bool;
  engine_answers : list EngineAnswer
}.

(** The start trigger, a callable of the caller's: it returns a DUT id,
    never returns, or raises. *)
Inductive Trigger : Type :=
| TriggerReturns (dut : string)
| TriggerBlocks
| TriggerRaises.

(** Modelled from the spec: the plug manager of a TestState
    (openhtf/plugs is not in src/): [InitializePlugs] may fail with
    PlugInitError, [TearDownPlugs] is best-effort and never raises. *)
Record PlugManager : Type := {
  plugs_initialized : bool;
  plug_teardowns : nat
}.

(** Modelled from the spec: [test_state.TestState] (openhtf/exe/test_state.py is
    not in src/), the single mutable record of a run.  [outcome] is [Some] once
    the state is finalized. *)
Record TestState : Type := {
  dut_id : option string;
  running : bool;
  status : option Outcome;
  outcome : option Outcome;
  plug_manager : PlugManager
}.

Definition is_finalized (ts : TestState) : bool :=
  match outcome ts with Some _ => true | None => false end.

Definition new_TestState (d : TestDescriptor) : TestState :=
  {| dut_id := None; running := false; status := None; outcome := None;
     plug_manager := {| plugs_initialized := false; plug_teardowns := 0 |} |}.

Definition ts_TestStarted (dut : option string) (ts : TestState) : TestState :=
  {| dut_id := dut; running := running ts; status := status ts;
     outcome := outcome ts; plug_manager := plug_manager ts |}.

Definition ts_SetStatusRunning (ts : TestState) : TestState :=
  {| dut_id := dut_id ts; running := true; status := status ts;
     outcome := outcome ts; plug_manager := plug_manager ts |}.

(** Modelled from the spec: [SetStatusFromPhaseOutcome(outcome) -> bool]
    advances the status and answers whether the test should stop early.  On
    an outcome that [finalizes] it also finalizes the record with that
    status, unless the record is finalized already (a record is finalized at
    most once). *)
Definition ts_SetStatusFromPhaseOutcome (po : PhaseOutcome) (ts : TestState)
  : bool * TestState :=
  match final_status po with
  | Some o =>
      (true,
       {| dut_id := dut_id ts;
          running := if finalizes po && negb (is_finalized ts) then false
                     else running ts;
          status := Some o;
          outcome := if finalizes po && negb (is_finalized ts) then Some o
                     else outcome ts;
          plug_manager := plug_manager ts |})
  | None => (false, ts)
  end.

(** The outcome a call gave to a record that had none before. *)
Definition newly_finalized (before after : TestState) : option Outcome :=
  match outcome before with
  | Some _ => None
  | None => outcome after
  end.

(** The outcome a state accumulates; an empty phase sequence is a pass. *)
Definition derived_outcome (ts : TestState) : Outcome :=
  match status ts with Some o => o | None => PASS end.

(** Modelled from the spec: [TestState.Finalize(outcome = derived-or-explicit)],
    which fails if the state is already finalized. *)
Definition ts_Finalize (o : option Outcome) (ts : TestState) : option TestState :=
  if is_finalized ts then None
  else Some {| dut_id := dut_id ts; running := false; status := status ts;
               outcome := Some (match o with Some x => x | None => derived_outcome ts end);
               plug_manager := plug_manager ts |}.

Definition ts_InitializePlugs (ts : TestState) : TestState :=
  {| dut_id := dut_id ts; running := running ts; status := status ts;
     outcome := outcome ts;
     plug_manager := {| plugs_initialized := true;
                        plug_teardowns := plug_teardowns (plug_manager ts) |} |}.

Definition ts_TearDownPlugs (ts : TestState) : TestState :=
  {| dut_id := dut_id ts; running := running ts; status := status ts;
     outcome := outcome ts;
     plug_manager := {| plugs_initialized := false;
                        plug_teardowns := S (plug_teardowns (plug_manager ts)) |} |}.

(** ** The cleanup stack *)

(** The two release actions the worker registers on its ExitStack. *)
Inductive Callback : Type :=
| TearDownPlugs_cb     (* self._test_state.plug_manager.TearDownPlugs, line 146 *)
| ExecutorStop_cb.     (* executor.Stop, line 167 *)

Definition Callback_eqb (a b : Callback) : bool :=
  match a, b with
  | TearDownPlugs_cb, TearDownPlugs_cb | ExecutorStop_cb, ExecutorStop_cb => true
  | _, _ => false
  end.

(** The one ExitStack object of a run lives in the store; [self._exit_stack]
    and the worker's local [exit_stack] are references to it. *)
Inductive ObjRef : Type := ExitStackObj.

(** Python truth of a reference-or-None: contextlib2's ExitStack defines
    neither [__bool__] nor [__len__], so an ExitStack object is always true. *)
Definition truthy {A : Type} (v : option A) : bool :=
  match v with Some _ => true | None => false end.

(** The truth of an attribute's value, for an attribute that is assigned. *)
Definition truthy_attr {A : Type} (a : attr (option A)) : bool :=
  match a with
  | Assigned v => truthy v
  | Unassigned => false
  end.

(** ** The worker's program counter: statements of [_ThreadProc] *)
Inductive PC : Type :=
| NotStarted
| L114      (* with self._lock: self._exit_stack = None *)
| L116      (* self._test_state = None *)
| L117      (* self._output_thread = None *)
| L119      (* with contextlib.ExitStack() as exit_stack: *)
| L124      (* with self._lock: self._exit_stack = exit_stack *)
| L128      (* self._test_state = test_state.TestState(...) *)
| L133      (* self._test_state.TestStarted(self._WaitForTestStart()) *)
| L134      (* self._test_state.plug_manager.InitializePlugs() *)
| L136      (* with self._lock: if not self._exit_stack: ... *)
| L146      (* exit_stack.callback(...TearDownPlugs) *)
| L166      (* executor = phase_executor.PhaseExecutor(self._test_state) *)
| L167      (* exit_stack.callback(executor.Stop) *)
| L149      (* leaving the with self._lock block *)
| L172      (* self._test_state.SetStatusRunning() *)
| L175      (* for phase_outcome in executor.ExecutePhases(...) *)
| L189      (* if self._teardown_function: ... *)
| Unwinding (e : option exn)   (* ExitStack.__exit__ of the with block *)
| Done (e : option exn).       (* the thread has ended, with e unhandled *)

(** ** Ghost trace of what a run did to its collaborators *)
(** Who finalized: the worker at the end of the phase sequence (line 180),
    the worker's interrupt handler (line 184), the executor's [Finalize]
    (line 94), the interrupt handler of [Wait] (line 105), or the TestState
    itself on a terminal phase outcome (inside line 177). *)
Inductive Who : Type :=
| ByWorker | ByWorkerInterrupt | ByFinalize | ByWait | ByPhaseOutcome.

Inductive Event : Type :=
| Registered (c : Callback)
| Released (c : Callback)
| BestEffortTearDown
| Finalized (w : Who) (o : Outcome)
| FinalizeRejected (w : Who)
| PhaseRun (po : PhaseOutcome)
| TeardownRun (p : PhaseDescriptor).

(** ** The executor object *)
Record Executor : Type := {
  (* assigned by __init__ *)
  _teardown_function : option PhaseDescriptor;
  _test_descriptor : TestDescriptor;
  _test_start : option Trigger;          (* None, or the start trigger *)
  _lock : bool;                          (* true while held *)
  (* assigned by _ThreadProc only *)
  _exit_stack : attr (option ObjRef);
  _test_state : attr (option TestState);
  _output_thread : attr (option unit);
  (* the store: the ExitStack object's callbacks, most recent first *)
  exit_stack_obj : option (list Callback);
  (* the worker thread *)
  pc : PC;
  executor_stopped : option bool;        (* the local PhaseExecutor, once made *)
  generator : option (list EngineAnswer);     (* ExecutePhases(...), once begun *)
  kill_requested : bool;                 (* KillableThread.Kill() was called *)
  (* ghost *)
  trace : list Event                     (* most recent first *)
}.

(** Assignment to one attribute (or store cell) of the executor. *)
Definition set_lock (v : bool) (s : Executor) : Executor :=
  {| _teardown_function := _teardown_function s;
     _test_descriptor := _test_descriptor s;
     _test_start := _test_start s;
     _lock := v;
     _exit_stack := _exit_stack s;
     _test_state := _test_state s;
     _output_thread := _output_thread s;
     exit_stack_obj := exit_stack_obj s;
     pc := pc s;
     executor_stopped := executor_stopped s;
     generator := generator s;
     kill_requested := kill_requested s;
     trace := trace s |}.

Definition set_exit_stack (v : attr (option ObjRef)) (s : Executor) : Executor :=
  {| _teardown_function := _teardown_function s;
     _test_descriptor := _test_descriptor s;
     _test_start := _test_start s;
     _lock := _lock s;
     _exit_stack := v;
     _test_state := _test_state s;
     _output_thread := _output_thread s;
     exit_stack_obj := exit_stack_obj s;
     pc := pc s;
     executor_stopped := executor_stopped s;
     generator := generator s;
     kill_requested := kill_requested s;
     trace := trace s |}.

Definition set_test_state (v : attr (option TestState)) (s : Executor) : Executor :=
  {| _teardown_function := _teardown_function s;
     _test_descriptor := _test_descriptor s;
     _test_start := _test_start s;
     _lock := _lock s;
     _exit_stack := _exit_stack s;
     _test_state := v;
     _output_thread := _output_thread s;
     exit_stack_obj := exit_stack_obj s;
     pc := pc s;
     executor_stopped := executor_stopped s;
     generator := generator s;
     kill_requested := kill_requested s;
     trace := trace s |}.

Definition set_output_thread (v : attr (option unit)) (s : Executor) : Executor :=
  {| _teardown_function := _teardown_function s;
     _test_descriptor := _test_descriptor s;
     _test_start := _test_start s;
     _lock := _lock s;
     _exit_stack := _exit_stack s;
     _test_state := _test_state s;
     _output_thread := v;
     exit_stack_obj := exit_stack_obj s;
     pc := pc s;
     executor_stopped := executor_stopped s;
     generator := generator s;
     kill_requested := kill_requested s;
     trace := trace s |}.

Definition set_exit_stack_obj (v : option (list Callback)) (s : Executor) : Executor :=
  {| _teardown_function := _teardown_function s;
     _test_descriptor := _test_descriptor s;
     _test_start := _test_start s;
     _lock := _lock s;
     _exit_stack := _exit_stack s;
     _test_state := _test_state s;
     _output_thread := _output_thread s;
     exit_stack_obj := v;
     pc := pc s;
     executor_stopped := executor_stopped s;
     generator := generator s;
     kill_requested := kill_requested s;
     trace := trace s |}.

Definition set_pc (v : PC) (s : Executor) : Executor :=
  {| _teardown_function := _teardown_function s;
     _test_descriptor := _test_descriptor s;
     _test_start := _test_start s;
     _lock := _lock s;
     _exit_stack := _exit_stack s;
     _test_state := _test_state s;
     _output_thread := _output_thread s;
     exit_stack_obj := exit_stack_obj s;
     pc := v;
     executor_stopped := executor_stopped s;
     generator := generator s;
     kill_requested := kill_requested s;
     trace := trace s |}.

Definition set_executor_stopped (v : option bool) (s : Executor) : Executor :=
  {| _teardown_function := _teardown_function s;
     _test_descriptor := _test_descriptor s;
     _test_start := _test_start s;
     _lock := _lock s;
     _exit_stack := _exit_stack s;
     _test_state := _test_state s;
     _output_thread := _output_thread s;
     exit_stack_obj := exit_stack_obj s;
     pc := pc s;
     executor_stopped := v;
     generator := generator s;
     kill_requested := kill_requested s;
     trace := trace s |}.

Definition set_generator (v : option (list EngineAnswer)) (s : Executor) : Executor :=
  {| _teardown_function := _teardown_function s;
     _test_descriptor := _test_descriptor s;
     _test_start := _test_start s;
     _lock := _lock s;
     _exit_stack := _exit_stack s;
     _test_state := _test_state s;
     _output_thread := _output_thread s;
     exit_stack_obj := exit_stack_obj s;
     pc := pc s;
     executor_stopped := executor_stopped s;
     generator := v;
     kill_requested := kill_requested s;
     trace := trace s |}.

Definition set_kill_requested (v : bool) (s : Executor) : Executor :=
  {| _teardown_function := _teardown_function s;
     _test_descriptor := _test_descriptor s;
     _test_start := _test_start s;
     _lock := _lock s;
     _exit_stack := _exit_stack s;
     _test_state := _test_state s;
     _output_thread := _output_thread s;
     exit_stack_obj := exit_stack_obj s;
     pc := pc s;
     executor_stopped := executor_stopped s;
     generator := generator s;
     kill_requested := v;
     trace := trace s |}.

Definition set_trace (v : list Event) (s : Executor) : Executor :=
  {| _teardown_function := _teardown_function s;
     _test_descriptor := _test_descriptor s;
     _test_start := _test_start s;
     _lock := _lock s;
     _exit_stack := _exit_stack s;
     _test_state := _test_state s;
     _output_thread := _output_thread s;
     exit_stack_obj := exit_stack_obj s;
     pc := pc s;
     executor_stopped := executor_stopped s;
     generator := generator s;
     kill_requested := kill_requested s;
     trace := v |}.

(** ** A state-and-exception monad over the executor

    A Python call changes the object and then either returns or raises; what
    it changed before raising stays changed.  [Blocked] is a call that waits
    (on the lock, or in [join]) and has not done anything yet. *)
Inductive result (A : Type) : Type :=
| Return (a : A)
| Raise (e : exn)
| Blocked.
Arguments Return {A} a.
Arguments Raise {A} e.
Arguments Blocked {A}.

Definition M (A : Type) : Type := Executor -> result A * Executor.

Definition ret {A : Type} (a : A) : M A := fun s => (Return a, s).
Definition raise {A : Type} (e : exn) : M A := fun s => (Raise e, s).
Definition block {A : Type} : M A := fun s => (Blocked, s).

Definition bind {A B : Type} (m : M A) (k : A -> M B) : M B :=
  fun s =>
    match m s with
    | (Return a, s') => k a s'
    | (Raise e, s') => (Raise e, s')
    | (Blocked, s') => (Blocked, s')
    end.

Definition gets {A : Type} (f : Executor -> A) : M A := fun s => (Return (f s), s).
Definition modify (f : Executor -> Executor) : M unit := fun s => (Return tt, f s).

(** [try: m except: h] *)
Definition try_except {A : Type} (m : M A) (h : exn -> M A) : M A :=
  fun s =>
    match m s with
    | (Raise e, s') => h e s'
    | r => r
    end.

Declare Scope exe_scope.
Delimit Scope exe_scope with exe.
Notation "x <- m ;; k" := (bind m (fun x => k))
  (at level 61, m at next level, right associativity) : exe_scope.
Notation "m ;; k" := (bind m (fun _ => k))
  (at level 61, right associativity) : exe_scope.
Local Open Scope exe_scope.

(** Reading an attribute that was never assigned raises AttributeError. *)
Definition getattr {A : Type} (f : Executor -> attr A) : M A :=
  fun s =>
    match f s with
    | Assigned v => (Return v, s)
    | Unassigned => (Raise AttributeError, s)
    end.

(** [self._test_state.<something>]: the attribute must be assigned, and
    [None] has no attributes. *)
Definition the_test_state : M TestState :=
  v <- getattr _test_state ;;
  match v with
  | Some ts => ret ts
  | None => raise AttributeError
  end.

Definition log (e : Event) : M unit :=
  modify (fun s => set_trace (e :: trace s) s).

(** A method of the TestState object that only mutates it. *)
Definition on_test_state (f : TestState -> TestState) : M unit :=
  ts <- the_test_state ;;
  modify (set_test_state (Assigned (Some (f ts)))).

(** [with self._lock:] around a body that runs in one go. *)
Definition with_lock {A : Type} (body : M A) : M A :=
  fun s =>
    if _lock s then (Blocked, s)
    else
      match body (set_lock true s) with
      | (r, s') => (r, set_lock false s')
      end.

(** [self._test_state.Finalize(o)], recording who asked. *)
Definition TestState_Finalize (w : Who) (o : option Outcome) : M unit :=
  ts <- the_test_state ;;
  match ts_Finalize o ts with
  | Some ts' =>
      modify (set_test_state (Assigned (Some ts'))) ;;
      log (Finalized w (match outcome ts' with Some x => x | None => ABORTED end))
  | None =>
      log (FinalizeRejected w) ;;
      raise TestAlreadyFinalized
  end.

(** A bound method captured by [exit_stack.callback]: running it acts on the
    object it was taken from. *)
Definition invoke (c : Callback) (s : Executor) : Executor :=
  match c with
  | TearDownPlugs_cb =>
      match _test_state s with
      | Assigned (Some ts) => set_test_state (Assigned (Some (ts_TearDownPlugs ts))) s
      | _ => s
      end
  | ExecutorStop_cb =>
      match executor_stopped s with
      | Some _ => set_executor_stopped (Some true) s
      | None => s
      end
  end.

Definition release (c : Callback) (s : Executor) : Executor :=
  set_trace (Released c :: trace s) (invoke c s).

(** Modelled from the spec: the cleanup stack (contextlib2's ExitStack, a
    library outside src/).  [callback] pushes a release action; [close] takes
    the actions off, most recent first, and runs each one. *)
Definition ExitStack_callback (c : Callback) : M unit :=
  modify (fun s =>
    set_trace (Registered c :: trace s)
      (set_exit_stack_obj
         (match exit_stack_obj s with
          | Some cbs => Some (c :: cbs)
          | None => Some [c]
          end) s)).

(** One round of [ExitStack.__exit__]: take the top action off and run it. *)
Definition ExitStack_pop (s : Executor) : option Executor :=
  match exit_stack_obj s with
  | Some (c :: cbs) => Some (release c (set_exit_stack_obj (Some cbs) s))
  | _ => None
  end.

(** The callbacks still on the ExitStack object. *)
Definition stack_of (s : Executor) : list Callback :=
  match exit_stack_obj s with Some l => l | None => [] end.

(** [while self._exit_callbacks: cb = self._exit_callbacks.pop(); cb(...)] *)
Fixpoint close_loop (fuel : nat) (s : Executor) : Executor :=
  match fuel with
  | 0 => s
  | S n =>
      match ExitStack_pop s with
      | Some s' => close_loop n s'
      | None => s
      end
  end.

Definition ExitStack_close : M unit :=
  modify (fun s => close_loop (List.length (stack_of s)) s).

(** ** The executor's methods *)

(** [TestExecutor.__init__] (lines 53-65).  [_exit_stack], [_test_state] and
    [_output_thread] are not assigned here. *)
Definition __init__ (conf : Conf) (test_descriptor : TestDescriptor)
    (test_start : option Trigger) (teardown_function : option PhaseArg) : Executor :=
  {| _teardown_function :=
       match teardown_function with
       | Some f => Some (set_timeout_s (teardown_timeout_s conf) (WrapOrCopy f))
       | None => None
       end;
     _test_descriptor := test_descriptor;
     _test_start := test_start;
     _lock := false;
     _exit_stack := Unassigned;
     _test_state := Unassigned;
     _output_thread := Unassigned;
     exit_stack_obj := None;
     pc := NotStarted;
     executor_stopped := None;
     generator := None;
     kill_requested := false;
     trace := [] |}.

(** [Start] (lines 67-69): [threading.Thread.start], once. *)
Definition Start : M unit :=
  p <- gets pc ;;
  match p with
  | NotStarted => modify (set_pc L114)
  | _ => raise RuntimeError
  end.

(** Modelled from the spec: [KillableThread.Kill] (openhtf/util/threads.py is
    not in src/) asks for an exception to be raised in the worker; when and
    whether it lands is up to the schedule. *)
Definition Kill : M unit := modify (set_kill_requested true).

(** [Stop] (lines 71-77). *)
Definition Stop : M unit :=
  with_lock
    (v <- getattr _exit_stack ;;
     if truthy v then ExitStack_close else ret tt) ;;
  Kill.

(** [Finalize] (lines 79-96). *)
Definition Finalize : M TestState :=
  v <- getattr _test_state ;;
  if negb (truthy v) then raise TestStopError
  else
    ts <- the_test_state ;;
    (if negb (is_finalized ts)
     then TestState_Finalize ByFinalize (Some ABORTED)
     else ret tt) ;;
    the_test_state.

(** [threading.Thread.join]: an error before the thread is started, and
    otherwise back once the thread has ended. *)
Definition join : M unit :=
  p <- gets pc ;;
  match p with
  | NotStarted => raise RuntimeError
  | Done _ => ret tt
  | _ => block
  end.

(** [Wait] (lines 98-106); [interrupt] says that KeyboardInterrupt is raised
    in the caller while it is inside [join]. *)
Definition Wait (interrupt : bool) : M unit :=
  try_except
    (if interrupt
     then (p <- gets pc ;;
           match p with
           | NotStarted => raise RuntimeError
           | _ => raise KeyboardInterrupt
           end)
     else join)
    (fun e =>
       match e with
       | KeyboardInterrupt =>
           TestState_Finalize ByWait (Some ABORTED) ;;
           raise KeyboardInterrupt
       | _ => raise e
       end).

(** [GetState] (lines 108-110). *)
Definition GetState : M (option TestState) := getattr _test_state.

(** [_WaitForTestStart] (lines 158-162): None without a trigger, else
    whatever calling the trigger comes to. *)
Definition _WaitForTestStart : M (option string) :=
  t <- gets _test_start ;;
  match t with
  | None => ret None
  | Some (TriggerReturns dut) => ret (Some dut)
  | Some TriggerBlocks => block
  | Some TriggerRaises => raise StartTriggerError
  end.

(** [plug_manager.InitializePlugs()] *)
Definition InitializePlugs : M unit :=
  d <- gets _test_descriptor ;;
  if plug_init_raises d then the_test_state ;; raise PlugInitError
  else on_test_state ts_InitializePlugs.

(** ** The worker: [_ThreadProc] statement by statement *)

(** The handler of [except KeyboardInterrupt] in [_ExecuteTestPhases]
    (lines 181-185). *)
Definition on_KeyboardInterrupt {A : Type} (e : exn) : M A :=
  match e with
  | KeyboardInterrupt =>
      TestState_Finalize ByWorkerInterrupt (Some ABORTED) ;;
      raise KeyboardInterrupt
  | _ => raise e
  end.

(** One round of the [for ... else] of lines 175-180: the next outcome of the
    lazy sequence, or its end.  Modelled from the spec: [ExecutePhases] of the
    phase-execution engine (not in src/) gives its answers one by one as
    they are asked for; the worker waits for as long as none comes. *)
Definition next_phase : M PC :=
  g <- gets generator ;;
  d <- gets _test_descriptor ;;
  match (match g with Some l => l | None => engine_answers d end) with
  | NeverAnswers :: _ => block
  | Yields po :: rest =>
      modify (set_generator (Some rest)) ;;
      log (PhaseRun po) ;;
      ts <- the_test_state ;;
      let (stop, ts') := ts_SetStatusFromPhaseOutcome po ts in
      modify (set_test_state (Assigned (Some ts'))) ;;
      match newly_finalized ts ts' with
      | Some o => log (Finalized ByPhaseOutcome o)
      | None => ret tt
      end ;;
      if stop then ret L189 else ret L175
  | [] =>
      modify (set_generator (Some [])) ;;
      TestState_Finalize ByWorker None ;;
      ret L189
  end.

(** The statement at a program counter; it answers where the worker goes
    next.  The lock taken at line 136 is held until line 149.  Modelled from
    the spec: [_ExecuteOnePhase] of line 190 (the engine is not in src/)
    records what goes wrong inside the phase and raises nothing; its result
    is dropped by line 190. *)
Definition stmt (p : PC) : M PC :=
  match p with
  | NotStarted => block
  | L114 => with_lock (modify (set_exit_stack (Assigned None))) ;; ret L116
  | L116 => modify (set_test_state (Assigned None)) ;; ret L117
  | L117 => modify (set_output_thread (Assigned None)) ;; ret L119
  | L119 => modify (set_exit_stack_obj (Some [])) ;; ret L124
  | L124 => with_lock (modify (set_exit_stack (Assigned (Some ExitStackObj)))) ;; ret L128
  | L128 =>
      d <- gets _test_descriptor ;;
      modify (set_test_state (Assigned (Some (new_TestState d)))) ;;
      ret L133
  | L133 =>
      dut <- _WaitForTestStart ;;
      on_test_state (ts_TestStarted dut) ;;
      ret L134
  | L134 => InitializePlugs ;; ret L136
  | L136 =>
      held <- gets _lock ;;
      if held then block
      else
        modify (set_lock true) ;;
        v <- getattr _exit_stack ;;
        if negb (truthy v) then
          on_test_state ts_TearDownPlugs ;;
          log BestEffortTearDown ;;
          raise TestStopError
        else ret L146
  | L146 =>
      the_test_state ;;
      ExitStack_callback TearDownPlugs_cb ;;
      ret L166
  | L166 =>
      getattr _test_state ;;
      modify (set_executor_stopped (Some false)) ;;
      ret L167
  | L167 => ExitStack_callback ExecutorStop_cb ;; ret L149
  | L149 => modify (set_lock false) ;; ret L172
  | L172 => on_test_state ts_SetStatusRunning ;; ret L175
  | L175 => try_except next_phase on_KeyboardInterrupt
  | L189 =>
      t <- gets _teardown_function ;;
      match t with
      | Some td => log (TeardownRun td)
      | None => ret tt
      end ;;
      ret (Unwinding None)
  | Unwinding e =>
      fun s =>
        match ExitStack_pop s with
        | Some s' => (Return (Unwinding e), s')
        | None => (Return (Done e), s)
        end
  | Done e => block
  end.

(** Whether the worker holds [self._lock] at a statement. *)
Definition in_locked_region (p : PC) : bool :=
  match p with
  | L136 | L146 | L166 | L167 | L149 => true
  | _ => false
  end.

(** Whether a statement is inside the [with contextlib.ExitStack()] block. *)
Definition in_with_block (p : PC) : bool :=
  match p with
  | NotStarted | L114 | L116 | L117 | L119 | Unwinding _ | Done _ => false
  | _ => true
  end.

(** An exception [e] leaves the statement at [p]: the lock of an enclosing
    [with self._lock] is given back, and the ExitStack block, if entered,
    starts unwinding; before it, the thread just ends. *)
Definition propagate (p : PC) (e : exn) (s : Executor) : Executor :=
  let s1 := if in_locked_region p then set_lock false s else s in
  set_pc (if in_with_block p then Unwinding (Some e) else Done (Some e)) s1.

(** The worker runs its current statement. *)
Definition worker_step (s : Executor) : Executor :=
  match stmt (pc s) s with
  | (Return p', s') => set_pc p' s'
  | (Raise e, s') => propagate (pc s) e s'
  | (Blocked, _) => s
  end.

(** What can be raised in the worker from outside: the exception of a
    [Kill], or a keyboard interrupt. *)
Inductive Signal : Type := Killed | Interrupted.

Definition exn_of_signal (sig : Signal) : exn :=
  match sig with
  | Killed => ThreadTerminationError
  | Interrupted => KeyboardInterrupt
  end.

(** An exception raised in the worker from outside (a Kill, a signal).  It
    lands at a cooperation point of the worker, which the model takes to be the
    boundaries of its statements: a thread that has not started or has ended
    is not affected.  Inside the [try] of lines 174-185 the handler sees it
    first.  While the ExitStack unwinds, it lands in a release action: the
    stack goes on with the actions that are left and raises this exception
    at the end, in place of the one it was unwinding for.  The lock taken at
    line 136 is not yet held when the worker stands before that line. *)
Definition async_raise (sig : Signal) (s : Executor) : Executor :=
  let e := exn_of_signal sig in
  match pc s with
  | NotStarted | Done _ => s
  | Unwinding _ => set_pc (Unwinding (Some e)) s
  | L175 =>
      match on_KeyboardInterrupt (A := unit) e s with
      | (Raise e', s') => propagate L175 e' s'
      | (_, s') => s'
      end
  | L136 => set_pc (Unwinding (Some e)) s
  | p => propagate p e s
  end.

(** ** Schedules: the worker interleaved with the controller *)
Inductive Action : Type :=
| AStart
| AWorker
| AAsync (sig : Signal)
| AStop
| AFinalize
| AWait (interrupt : bool)
| AGetState.

(** A call of the controller, its answer dropped; a blocked call has done
    nothing. *)
Definition call {A : Type} (m : M A) (s : Executor) : Executor :=
  match m s with
  | (Blocked, _) => s
  | (_, s') => s'
  end.

Definition act (a : Action) (s : Executor) : Executor :=
  match a with
  | AStart => call Start s
  | AWorker => worker_step s
  | AAsync sig => async_raise sig s
  | AStop => call Stop s
  | AFinalize => call Finalize s
  | AWait i => call (Wait i) s
  | AGetState => call GetState s
  end.

Definition exec (sched : list Action) (s : Executor) : Executor :=
  fold_left (fun s' a => act a s') sched s.

(** ** Reading a trace *)

(** Release actions registered / run, most recent first. *)
Fixpoint registered_rev (tr : list Event) : list Callback :=
  match tr with
  | [] => []
  | Registered c :: tr' => c :: registered_rev tr'
  | _ :: tr' => registered_rev tr'
  end.

Fixpoint released_rev (tr : list Event) : list Callback :=
  match tr with
  | [] => []
  | Released c :: tr' => c :: released_rev tr'
  | _ :: tr' => released_rev tr'
  end.

(** The same in the order of time. *)
Definition registered (s : Executor) : list Callback := rev (registered_rev (trace s)).
Definition released (s : Executor) : list Callback := rev (released_rev (trace s)).

(** How often a release action occurs in a list. *)
Definition occurrences (c : Callback) (l : list Callback) : nat :=
  List.length (filter (Callback_eqb c) l).

(** Outcomes of the finalizations that went through. *)
Fixpoint finalizations (tr : list Event) : list Outcome :=
  match tr with
  | [] => []
  | Finalized _ o :: tr' => o :: finalizations tr'
  | _ :: tr' => finalizations tr'
  end.

Fixpoint teardown_runs (tr : list Event) : list PhaseDescriptor :=
  match tr with
  | [] => []
  | TeardownRun p :: tr' => p :: teardown_runs tr'
  | _ :: tr' => teardown_runs tr'
  end.

Fixpoint phase_runs (tr : list Event) : list PhaseOutcome :=
  match tr with
  | [] => []
  | PhaseRun p :: tr' => p :: phase_runs tr'
  | _ :: tr' => phase_runs tr'
  end.

Fixpoint best_effort_teardowns (tr : list Event) : nat :=
  match tr with
  | [] => 0
  | BestEffortTearDown :: tr' => S (best_effort_teardowns tr')
  | _ :: tr' => best_effort_teardowns tr'
  end.

Definition worker_done (s : Executor) : bool :=
  match pc s with Done _ => true | _ => false end.

(** The TestState the executor holds, if it holds one. *)
Definition current_state (s : Executor) : option TestState :=
  match _test_state s with
  | Assigned (Some ts) => Some ts
  | _ => None
  end.

(** ** The invariant of a run *)

(** Whether the lock is held between two steps of a schedule.  The blocks
    of lines 114-115 and 124-126 and the one of [Stop] (lines 74-76) take the
    lock and give it back within one step: critical sections under one lock
    exclude each other, so a schedule orders them and need not cut them.  The
    block of lines 136-149 spans several statements of the worker; between
    those the worker holds the lock. *)
Definition holds_lock (p : PC) : bool :=
  match p with
  | L146 | L166 | L167 | L149 => true
  | _ => false
  end.

(** The outcome recorded in the state, as a list. *)
Definition recorded_outcome (s : Executor) : list Outcome :=
  match current_state s with
  | Some ts => match outcome ts with Some o => [o] | None => [] end
  | None => []
  end.

(** The teardown phase, if one is configured, as a list. *)
Definition configured_teardown (s : Executor) : list PhaseDescriptor :=
  match _teardown_function s with Some p => [p] | None => [] end.

(** The teardown phase is run at line 190 and nowhere else: not before the
    worker is past that line, once when it came out of it without an
    exception. *)
Definition teardown_ok (s : Executor) : Prop :=
  match pc s with
  | Unwinding None | Done None => teardown_runs (trace s) = configured_teardown s
  | Unwinding (Some _) | Done (Some _) =>
      teardown_runs (trace s) = []
      \/ teardown_runs (trace s) = configured_teardown s
  | _ => teardown_runs (trace s) = []
  end.

(** Shape of an attribute that holds an object or None. *)
Inductive Shape : Type := Missing | IsNone | IsObject.

Definition shape {A : Type} (a : attr (option A)) : Shape :=
  match a with
  | Unassigned => Missing
  | Assigned None => IsNone
  | Assigned (Some _) => IsObject
  end.

(** What each statement of the worker finds: the shapes of [_exit_stack] and
    [_test_state], whether the ExitStack object exists, and the release
    actions registered so far (most recent first). *)
Definition at_pc (p : PC) (s : Executor) : Prop :=
  let st := (shape (_exit_stack s), shape (_test_state s),
             truthy (exit_stack_obj s), registered_rev (trace s)) in
  match p with
  | NotStarted | L114 => st = (Missing, Missing, false, [])
  | L116 => st = (IsNone, Missing, false, [])
  | L117 | L119 => st = (IsNone, IsNone, false, [])
  | L124 => st = (IsNone, IsNone, true, []) /\ stack_of s = []
  | L128 => st = (IsObject, IsNone, true, [])
  | L133 | L134 | L136 => st = (IsObject, IsObject, true, [])
  | L146 => st = (IsObject, IsObject, true, []) /\ released_rev (trace s) = []
  | L166 | L167 =>
      st = (IsObject, IsObject, true, [TearDownPlugs_cb])
      /\ released_rev (trace s) = []
  | L149 =>
      st = (IsObject, IsObject, true, [ExecutorStop_cb; TearDownPlugs_cb])
      /\ released_rev (trace s) = []
  | L172 | L175 | L189 =>
      st = (IsObject, IsObject, true, [ExecutorStop_cb; TearDownPlugs_cb])
  | Unwinding e =>
      shape (_test_state s) <> Missing /\ e <> Some TestStopError
      /\ (registered_rev (trace s) = []
          \/ registered_rev (trace s) = [TearDownPlugs_cb]
          \/ registered_rev (trace s) = [ExecutorStop_cb; TearDownPlugs_cb])
  | Done e =>
      stack_of s = [] /\ e <> Some TestStopError
      /\ (registered_rev (trace s) = []
          \/ registered_rev (trace s) = [TearDownPlugs_cb]
          \/ registered_rev (trace s) = [ExecutorStop_cb; TearDownPlugs_cb])
  end.

Record Inv (s : Executor) : Prop := {
  inv_lock : _lock s = holds_lock (pc s);
  inv_stack : rev (released_rev (trace s)) ++ stack_of s = registered_rev (trace s);
  inv_final : finalizations (trace s) = recorded_outcome s;
  inv_teardown : teardown_ok s;
  inv_best_effort : best_effort_teardowns (trace s) = 0;
  inv_pc : at_pc (pc s) s
}.

(** ** Schedules of the worker alone, and what never changes *)

(** A schedule in which only the worker moves. *)
Definition alone (n : nat) : list Action := repeat AWorker n.

(** The attributes [__init__] assigns. *)
Definition constants (s : Executor)
  : option PhaseDescriptor * TestDescriptor * option Trigger :=
  (_teardown_function s, _test_descriptor s, _test_start s).

(** ** Sample runs *)

Definition sample_conf : Conf := {| teardown_timeout_s_setting := None |}.

(** An outcome that lets the test go on, and one that stops it. *)
Definition goes_on : PhaseOutcome := {| final_status := None; finalizes := false |}.
Definition stops (o : Outcome) (fin : bool) : PhaseOutcome :=
  {| final_status := Some o; finalizes := fin |}.

Definition sample_phase (n : string) : PhaseDescriptor :=
  {| phase_name := n; options := {| timeout_s := None |}; phase_yields := goes_on |}.

(** A teardown phase that declares a timeout of ten minutes of its own. *)
Definition sample_teardown : PhaseArg :=
  Described {| phase_name := "teardown"%string; options := {| timeout_s := Some 600%Z |};
               phase_yields := goes_on |}.

Definition sample_start : option Trigger := Some (TriggerReturns "DUT-1"%string).

Definition sample_test : TestDescriptor :=
  {| test_name := "sample"%string;
     phases := [sample_phase "first"%string; sample_phase "second"%string];
     plug_init_raises := false;
     engine_answers := [Yields goes_on; Yields goes_on] |}.

(** The first phase yields a final status: the test halts early.  The
    TestState does not finalize itself on it. *)
Definition halting_test : TestDescriptor :=
  {| test_name := "halting"%string;
     phases := [sample_phase "first"%string; sample_phase "second"%string];
     plug_init_raises := false;
     engine_answers := [Yields (stops FAIL false); Yields goes_on] |}.

Definition broken_plug_test : TestDescriptor :=
  {| test_name := "broken plug"%string;
     phases := [sample_phase "first"%string];
     plug_init_raises := true;
     engine_answers := [Yields goes_on] |}.

Definition sample_executor : Executor :=
  __init__ sample_conf sample_test sample_start (Some sample_teardown).
Definition halting_executor : Executor :=
  __init__ sample_conf halting_test sample_start (Some sample_teardown).
Definition broken_plug_executor : Executor :=
  __init__ sample_conf broken_plug_test sample_start (Some sample_teardown).

(** ** More to read off a run *)

(** What the lazy sequence has not answered yet. *)
Definition pending (s : Executor) : list EngineAnswer :=
  match generator s with
  | Some l => l
  | None => engine_answers (_test_descriptor s)
  end.

(** An outcome that lets the iteration go on. *)
Definition nonfinal (po : PhaseOutcome) : Prop := final_status po = None.

(** The worker has not yet left the loop of lines 175-180. *)
Definition loop_open (p : PC) : bool :=
  match p with
  | L189 | Unwinding _ | Done _ => false
  | _ => true
  end.

(** Whether the worker made a Finalize after a teardown phase had run: a
    Finalize of the worker that has a teardown run before it in time. *)
Fixpoint late_worker_finalize (tr : list Event) : bool :=
  match tr with
  | [] => false
  | Finalized ByWorker _ :: tr' | Finalized ByWorkerInterrupt _ :: tr' =>
      match teardown_runs tr' with
      | [] => late_worker_finalize tr'
      | _ :: _ => true
      end
  | _ :: tr' => late_worker_finalize tr'
  end.

(** A bound on the statements the worker still has to execute. *)
Definition steps_left (s : Executor) : nat :=
  match pc s with
  | NotStarted => 0
  | L114 => 20 + List.length (pending s)
  | L116 => 19 + List.length (pending s)
  | L117 => 18 + List.length (pending s)
  | L119 => 17 + List.length (pending s)
  | L124 => 16 + List.length (pending s)
  | L128 => 15 + List.length (pending s)
  | L133 => 14 + List.length (pending s)
  | L134 => 13 + List.length (pending s)
  | L136 => 12 + List.length (pending s)
  | L146 => 11 + List.length (pending s)
  | L166 => 10 + List.length (pending s)
  | L167 => 9 + List.length (pending s)
  | L149 => 8 + List.length (pending s)
  | L172 => 7 + List.length (pending s)
  | L175 => 6 + List.length (pending s)
  | L189 => 5
  | Unwinding _ => 1 + List.length (stack_of s)
  | Done _ => 0
  end.

(** The statements a worker whose plugs fail to come up can be at. *)
Definition before_plugs (p : PC) : bool :=
  match p with
  | NotStarted | L114 | L116 | L117 | L119 | L124 | L128 | L133 | L134
  | Unwinding (Some _) | Done (Some _) => true
  | _ => false
  end.

(** The worker's calls of [Finalize] on the record, by where they are
    made: one that went through at line 180, one rejected there, the handler
    of line 184 (gone through or rejected); and a record that finalized
    itself inside [SetStatusFromPhaseOutcome] at line 177. *)
Definition finalized_180 (e : Event) : bool :=
  match e with Finalized ByWorker _ => true | _ => false end.

Definition rejected_180 (e : Event) : bool :=
  match e with FinalizeRejected ByWorker => true | _ => false end.

Definition handler_184 (e : Event) : bool :=
  match e with
  | Finalized ByWorkerInterrupt _ | FinalizeRejected ByWorkerInterrupt => true
  | _ => false
  end.

Definition by_outcome_177 (e : Event) : bool :=
  match e with Finalized ByPhaseOutcome _ => true | _ => false end.

(** The worker is unwinding with an exception, or has ended with one. *)
Definition raised (p : PC) : bool :=
  match p with
  | Unwinding (Some _) | Done (Some _) => true
  | _ => false
  end.

(** The worker has left the loop without an exception and none has been
    raised in it since. *)
Definition normal_exit (p : PC) : bool :=
  match p with
  | L189 | Unwinding None | Done None => true
  | _ => false
  end.

(** What the order of a run's phases and the worker's finalizing depend on:
    nothing in it is touched by [Stop], [Finalize], [Wait] or [GetState]. *)
Definition phase_view (s : Executor)
  : PC * list PhaseOutcome * list EngineAnswer * list EngineAnswer
    * list Callback * bool * list PhaseDescriptor * (bool * bool * bool * bool) :=
  (pc s, phase_runs (trace s), pending s, engine_answers (_test_descriptor s),
   registered_rev (trace s), late_worker_finalize (trace s),
   teardown_runs (trace s),
   (existsb finalized_180 (trace s), existsb rejected_180 (trace s),
    existsb handler_184 (trace s), existsb by_outcome_177 (trace s))).

(** A call that is still waiting. *)
Definition blocked {A : Type} (r : result A) : bool :=
  match r with Blocked => true | _ => false end.

(** A second invariant of a run: the order of its phases, and when the
    worker finalizes. *)
Record PhaseInv (s : Executor) : Prop := {
  pi_prefix :
    map Yields (rev (phase_runs (trace s))) ++ pending s
    = engine_answers (_test_descriptor s);
  pi_tail : Forall nonfinal (tl (phase_runs (trace s)));
  pi_open : loop_open (pc s) = true -> Forall nonfinal (phase_runs (trace s));
  pi_registered :
    phase_runs (trace s) = []
    \/ registered_rev (trace s) = [ExecutorStop_cb; TearDownPlugs_cb];
  pi_late : late_worker_finalize (trace s) = false;
  pi_in_loop :
    loop_open (pc s) = true ->
    existsb finalized_180 (trace s) = false
    /\ existsb rejected_180 (trace s) = false
    /\ existsb handler_184 (trace s) = false
    /\ existsb by_outcome_177 (trace s) = false;
  pi_180 :
    existsb finalized_180 (trace s) = true \/ existsb rejected_180 (trace s) = true ->
    pending s = [] /\ Forall nonfinal (phase_runs (trace s));
  pi_raised :
    existsb rejected_180 (trace s) = true \/ existsb handler_184 (trace s) = true ->
    raised (pc s) = true /\ teardown_runs (trace s) = []
    /\ Forall nonfinal (phase_runs (trace s));
  pi_exhausted :
    normal_exit (pc s) = true -> Forall nonfinal (phase_runs (trace s)) ->
    existsb finalized_180 (trace s) = true;
  pi_177 :
    existsb by_outcome_177 (trace s) = true ->
    ~ Forall nonfinal (phase_runs (trace s));
  pi_reached :
    existsb finalized_180 (trace s) = true \/ existsb rejected_180 (trace s) = true
    \/ existsb handler_184 (trace s) = true
    \/ existsb by_outcome_177 (trace s) = true ->
    registered_rev (trace s) = [ExecutorStop_cb; TearDownPlugs_cb]
}.

(** The worker has not got past [InitializePlugs]: nothing is registered,
    no phase and no teardown phase has run. *)
Definition stopped_before_plugs (s : Executor) : Prop :=
  before_plugs (pc s) = true /\ registered_rev (trace s) = []
  /\ phase_runs (trace s) = [] /\ teardown_runs (trace s) = [].
(** * Properties *)

Lemma rev_app_nil (A : Type) (a l : list A) :
  rev a ++ l = [] -> a = [] /\ l = [].
Proof.
  intros H. apply app_eq_nil in H. destruct H as [Ha Hl]. split; auto.
  destruct a; [reflexivity|]. simpl in Ha. apply app_eq_nil in Ha.
  destruct Ha; discriminate.
Qed.

(** ** Tactics for the case analyses below *)

Ltac invoke_cases :=
  let c := fresh "c" in let s := fresh "s" in
  intros c s; destruct s as [? ? ? ? ? [|[?|]] ? ? ? [?|] ? ? ?];
  destruct c; reflexivity.

Ltac break_shapes :=
  repeat match goal with
  | H : _ /\ _ |- _ => destruct H
  | H : (_, _) = (_, _) |- _ => apply pair_equal_spec in H
  | H : shape ?a = _ |- _ =>
      destruct a as [|[?|]]; simpl in H; try discriminate H; clear H
  | H : shape ?a <> Missing |- _ =>
      destruct a as [|[?|]]; simpl in H; [exfalso; apply H; reflexivity| |]; clear H
  | H : truthy ?a = _ |- _ =>
      destruct a; simpl in H; try discriminate H; clear H
  end.

Ltac split_inv :=
  match goal with
  | H : Inv _ |- _ =>
      let Hl := fresh "Hl" in let Hs := fresh "Hs" in let Hf := fresh "Hf" in
      let Ht := fresh "Ht" in let Hb := fresh "Hb" in let Hp := fresh "Hp" in
      destruct H as [Hl Hs Hf Ht Hb Hp];
      unfold recorded_outcome, teardown_ok, configured_teardown, current_state, stack_of in *;
      simpl in Hl, Hs, Hf, Ht, Hb, Hp
  end.

(** With the registered and released actions known, the stack invariant
    says what is on the ExitStack. *)
Ltac know_stack :=
  repeat match goal with
  | H1 : registered_rev ?tr = _, H : context [registered_rev ?tr] |- _ =>
      rewrite H1 in H
  | H1 : released_rev ?tr = _, H : context [released_rev ?tr] |- _ =>
      rewrite H1 in H
  | H : rev _ ++ _ = [] |- _ => apply rev_app_nil in H; destruct H
  | H : [] ++ ?l = _ |- _ => simpl in H
  | H : rev [] ++ ?l = _ |- _ => simpl in H
  | H : ?l = _ |- _ => is_var l; subst l
  end.

Ltac rewrite_known :=
  repeat match goal with
  | H : registered_rev ?tr = _ |- context [registered_rev ?tr] => rewrite H
  | H : released_rev ?tr = _ |- context [released_rev ?tr] => rewrite H
  | H : outcome ?t = _ |- context [outcome ?t] => rewrite H
  end.

Ltac finish :=
  constructor;
  unfold recorded_outcome, teardown_ok, configured_teardown, current_state, stack_of, at_pc;
  simpl; rewrite_known; simpl; repeat split; try congruence; auto.

(** [self._test_state.Finalize(...)] on a state that is there: it goes
    through or is rejected, by whether the state is finalized. *)
Ltac run_Finalize t :=
  unfold TestState_Finalize, bind, the_test_state, getattr, ts_Finalize,
    is_finalized; simpl;
  destruct (outcome t) eqn:?; simpl.


(** ** Running release actions *)

Lemma release_lock : forall c s, _lock (release c s) = _lock s.
Proof. invoke_cases. Qed.
Lemma release_pc : forall c s, pc (release c s) = pc s.
Proof. invoke_cases. Qed.
Lemma release_exit_stack : forall c s, _exit_stack (release c s) = _exit_stack s.
Proof. invoke_cases. Qed.
Lemma release_obj : forall c s, exit_stack_obj (release c s) = exit_stack_obj s.
Proof. invoke_cases. Qed.
Lemma release_kill : forall c s, kill_requested (release c s) = kill_requested s.
Proof. invoke_cases. Qed.
Lemma release_registered :
  forall c s, registered_rev (trace (release c s)) = registered_rev (trace s).
Proof. invoke_cases. Qed.
Lemma release_phase_runs :
  forall c s, phase_runs (trace (release c s)) = phase_runs (trace s).
Proof. invoke_cases. Qed.
Lemma release_released :
  forall c s, released_rev (trace (release c s)) = c :: released_rev (trace s).
Proof. invoke_cases. Qed.

Lemma release_set_lock b :
  forall c s, release c (set_lock b s) = set_lock b (release c s).
Proof. invoke_cases. Qed.

Lemma pop_set_lock b s :
  ExitStack_pop (set_lock b s) = option_map (set_lock b) (ExitStack_pop s).
Proof.
  unfold ExitStack_pop. simpl.
  destruct (exit_stack_obj s) as [[|c cbs]|]; simpl; try reflexivity.
  f_equal. rewrite <- release_set_lock. reflexivity.
Qed.

Lemma close_loop_set_lock b n :
  forall s, close_loop n (set_lock b s) = set_lock b (close_loop n s).
Proof.
  induction n as [|n IH]; intros s; simpl.
  - reflexivity.
  - rewrite pop_set_lock. destruct (ExitStack_pop s); simpl; auto.
Qed.

(** What closing does: every action on the stack is run, the top one first,
    and the stack is left empty. *)
Lemma close_loop_spec cbs :
  forall s,
    exit_stack_obj s = Some cbs ->
    let s' := close_loop (List.length cbs) s in
    exit_stack_obj s' = Some []
    /\ released_rev (trace s') = rev cbs ++ released_rev (trace s)
    /\ registered_rev (trace s') = registered_rev (trace s)
    /\ phase_runs (trace s') = phase_runs (trace s)
    /\ pc s' = pc s /\ _lock s' = _lock s /\ _exit_stack s' = _exit_stack s
    /\ kill_requested s' = kill_requested s.
Proof.
  induction cbs as [|c cbs IH]; intros s Hs; simpl.
  - repeat split; auto.
  - unfold ExitStack_pop. rewrite Hs.
    specialize (IH (release c (set_exit_stack_obj (Some cbs) s))).
    rewrite release_obj in IH. specialize (IH eq_refl). cbv zeta in IH.
    destruct IH as (H1 & H2 & H3 & H4 & H5 & H6 & H7 & H8).
    rewrite release_released in H2. rewrite release_registered in H3.
    rewrite release_phase_runs in H4. rewrite release_pc in H5.
    rewrite release_lock in H6. rewrite release_exit_stack in H7.
    rewrite release_kill in H8. simpl in *.
    repeat split; auto.
    rewrite H2, <- app_assoc. reflexivity.
Qed.

(** ** The invariant holds along every schedule *)

Lemma Inv_init conf d start tf : Inv (__init__ conf d start tf).
Proof. constructor; simpl; reflexivity. Qed.

(** Taking one action off the stack keeps the invariant, wherever the
    worker stands outside the locked region. *)
Lemma Inv_pop s s' :
  Inv s -> _lock s = false -> ExitStack_pop s = Some s' ->
  Inv s'.
Proof.
  destruct s as [tf d st l es ts ot eo p ex g k tr]; intros H Hlock Hpop.
  simpl in Hlock. subst l. unfold ExitStack_pop in Hpop. simpl in Hpop.
  destruct eo as [[|c cbs]|]; try discriminate. injection Hpop as <-.
  split_inv.
  destruct p; simpl in *; break_shapes; know_stack; try discriminate.
  all: destruct c, ex; simpl;
    try match goal with e : option exn |- _ => destruct e as [[]|] end;
    finish; try (rewrite <- app_assoc; simpl; assumption).
Qed.

Lemma pop_lock s s' : ExitStack_pop s = Some s' -> _lock s' = _lock s.
Proof.
  unfold ExitStack_pop. destruct (exit_stack_obj s) as [[|c cbs]|]; try discriminate.
  intros H. injection H as <-. rewrite release_lock. reflexivity.
Qed.

Lemma Inv_close_loop n :
  forall s, Inv s -> _lock s = false -> Inv (close_loop n s).
Proof.
  induction n as [|n IH]; intros s H Hl; simpl.
  - assumption.
  - destruct (ExitStack_pop s) as [s'|] eqn:Hpop; [|assumption].
    apply IH.
    + eapply Inv_pop; eassumption.
    + rewrite (pop_lock _ Hpop). assumption.
Qed.

Lemma Inv_Kill s : Inv s -> Inv (set_kill_requested true s).
Proof. destruct s; intros H; split_inv; finish. Qed.

(** [Stop] in one equation: it waits for the lock; it fails on a handle
    that was never assigned; it leaves an absent stack alone; it closes an
    installed one; and only then it asks for the kill. *)
Lemma Stop_eq s :
  Stop s =
  if _lock s then (Blocked, s)
  else match _exit_stack s with
       | Unassigned => (Raise AttributeError, s)
       | Assigned None => (Return tt, set_kill_requested true s)
       | Assigned (Some _) =>
           (Return tt,
            set_kill_requested true (close_loop (List.length (stack_of s)) s))
       end.
Proof.
  unfold Stop, bind, with_lock, getattr, Kill, modify, ExitStack_close, ret.
  destruct (_lock s) eqn:Hl; [reflexivity|]. simpl.
  destruct (_exit_stack s) as [|[r|]] eqn:He; simpl.
  - rewrite <- Hl at 1. replace (set_lock (_lock s) (set_lock true s)) with s;
      [reflexivity | destruct s; reflexivity].
  - change (stack_of (set_lock true s)) with (stack_of s).
    rewrite close_loop_set_lock.
    replace (set_lock false (set_lock true (close_loop (List.length (stack_of s)) s)))
      with (close_loop (List.length (stack_of s)) s); [reflexivity|].
    assert (Hl' : _lock (close_loop (List.length (stack_of s)) s) = false).
    { unfold stack_of. destruct (exit_stack_obj s) as [cbs|] eqn:Ho; simpl; auto.
      destruct (close_loop_spec s Ho) as (_ & _ & _ & _ & _ & H & _).
      rewrite H. assumption. }
    revert Hl'. generalize (close_loop (List.length (stack_of s)) s).
    intros [] Hx; simpl in *; subst; reflexivity.
  - replace (set_lock false (set_lock true s)) with s;
      [reflexivity | destruct s; simpl in *; subst; reflexivity].
Qed.

Lemma Inv_Stop s : Inv s -> Inv (call Stop s).
Proof.
  intros H. unfold call. rewrite Stop_eq.
  destruct (_lock s) eqn:Hl; [assumption|].
  destruct (_exit_stack s) as [|[r|]]; try assumption.
  - apply Inv_Kill, Inv_close_loop; assumption.
  - apply Inv_Kill; assumption.
Qed.

Lemma Inv_worker_step s : Inv s -> Inv (worker_step s).
Proof.
  destruct s as [tf d st l es ts ot eo p ex g k tr]; intros H.
  split_inv. subst l.
  destruct p; simpl in *; break_shapes; know_stack.
  all: unfold worker_step; simpl.
  all: try (finish; fail).
  - (* L133 *) destruct st as [[| |]|]; simpl; finish.
  - (* L134 *) unfold InitializePlugs, bind, gets; simpl.
    destruct (plug_init_raises d); simpl; finish.
  - (* L175 *) unfold try_except, next_phase, bind, gets; simpl.
    destruct (match g with Some l0 => l0 | None => engine_answers d end)
      as [|[po|] rest]; simpl.
    + run_Finalize t; finish.
    + unfold ts_SetStatusFromPhaseOutcome, newly_finalized, is_finalized.
      destruct (final_status po), (finalizes po), (outcome t) eqn:Ho;
        simpl; try rewrite Ho; simpl; finish.
    + finish.
  - (* L189 *) destruct tf; simpl; finish.
  - (* Unwinding, a TestState *)
    unfold ExitStack_pop; simpl.
    destruct eo as [[|c cbs]|]; simpl; try (destruct e as [[]|]; finish; fail).
    destruct c, ex, e as [[]|]; simpl; finish;
      try (rewrite <- app_assoc; simpl; assumption).
  - (* Unwinding, no TestState yet *)
    unfold ExitStack_pop; simpl.
    destruct eo as [[|c cbs]|]; simpl; try (destruct e as [[]|]; finish; fail).
    destruct c, ex, e as [[]|]; simpl; finish;
      try (rewrite <- app_assoc; simpl; assumption).
Qed.

Lemma Inv_async_raise sig s : Inv s -> Inv (async_raise sig s).
Proof.
  destruct s as [tf d st l es ts ot eo p ex g k tr]; intros H.
  split_inv. subst l.
  destruct p; simpl in *; break_shapes; know_stack.
  all: unfold async_raise; simpl.
  all: try (destruct sig; finish; fail).
  - destruct sig; simpl; [finish|].
    run_Finalize t; finish.
  - destruct sig, e as [e|]; finish.
  - destruct sig, e as [e|]; finish.
Qed.

Lemma Inv_Start s : Inv s -> Inv (call Start s).
Proof.
  intros H. unfold call, Start, bind, gets, raise. simpl.
  destruct (pc s) eqn:Hpc; simpl; try exact H.
  destruct s as [tf d st l es ts ot eo p ex g k tr]; simpl in Hpc; subst p.
  split_inv. simpl in *. break_shapes. finish.
Qed.

Lemma Inv_Finalize s : Inv s -> Inv (call Finalize s).
Proof.
  destruct s as [tf d st l es ts ot eo p ex g k tr]; intros H.
  unfold call, Finalize, bind, getattr. simpl.
  destruct ts as [|[t|]]; simpl; try assumption.
  unfold is_finalized at 1.
  destruct (outcome t) eqn:Ho; simpl; [assumption|].
  split_inv. run_Finalize t; try congruence.
  destruct p; simpl in *; break_shapes; know_stack; finish.
Qed.

Lemma Inv_Wait i s : Inv s -> Inv (call (Wait i) s).
Proof.
  destruct s as [tf d st l es ts ot eo p ex g k tr]; intros H.
  unfold call, Wait, try_except, join, bind, gets. simpl.
  destruct i; [|destruct p; simpl; assumption].
  assert (Hint : Inv (call (TestState_Finalize ByWait (Some ABORTED) ;; raise (A := unit) KeyboardInterrupt)
                        {| _teardown_function := tf; _test_descriptor := d; _test_start := st;
                           _lock := l; _exit_stack := es; _test_state := ts;
                           _output_thread := ot; exit_stack_obj := eo; pc := p;
                           executor_stopped := ex; generator := g;
                           kill_requested := k; trace := tr |})).
  { unfold call, bind. 
    destruct ts as [|[t|]]; try (simpl; assumption).
    split_inv. run_Finalize t; destruct p; simpl in *; break_shapes; know_stack; finish. }
  unfold call, bind in Hint.
  destruct p; simpl; try assumption; exact Hint.
Qed.

Lemma Inv_GetState s : Inv s -> Inv (call GetState s).
Proof.
  intros H. unfold call, GetState, getattr.
  destruct (_test_state s); assumption.
Qed.

Lemma Inv_act a s : Inv s -> Inv (act a s).
Proof.
  destruct a; simpl.
  - apply Inv_Start.
  - apply Inv_worker_step.
  - apply Inv_async_raise.
  - apply Inv_Stop.
  - apply Inv_Finalize.
  - apply Inv_Wait.
  - apply Inv_GetState.
Qed.

Lemma Inv_exec sched : forall s, Inv s -> Inv (exec sched s).
Proof.
  unfold exec. induction sched as [|a sched IH]; intros s H; simpl.
  - assumption.
  - apply IH, Inv_act, H.
Qed.

(** Every state a schedule can reach from a fresh executor. *)
Lemma Inv_reachable conf d start tf sched :
  Inv (exec sched (__init__ conf d start tf)).
Proof. apply Inv_exec, Inv_init. Qed.

(** ** The worker running alone *)

Lemma exec_app a b s : exec (a ++ b) s = exec b (exec a s).
Proof. unfold exec. apply fold_left_app. Qed.

Lemma alone_plus n m s :
  exec (alone (n + m)) s = exec (alone m) (exec (alone n) s).
Proof. unfold alone. rewrite repeat_app. apply exec_app. Qed.

Lemma done_stable n s : worker_done s = true -> exec (alone n) s = s.
Proof.
  intros H. induction n as [|n IH]; simpl; [reflexivity|].
  change (exec (alone (S n)) s) with (exec (alone n) (worker_step s)).
  replace (worker_step s) with s; [exact IH|].
  unfold worker_step, worker_done in *. destruct (pc s); try discriminate.
  reflexivity.
Qed.

Lemma alone_enough n m s :
  worker_done (exec (alone n) s) = true -> n <= m ->
  exec (alone m) s = exec (alone n) s.
Proof.
  intros H Hle. replace m with (n + (m - n)) by lia.
  rewrite alone_plus. apply done_stable, H.
Qed.

Lemma release_teardown_runs :
  forall c s, teardown_runs (trace (release c s)) = teardown_runs (trace s).
Proof. invoke_cases. Qed.

(** Unwinding ends: with [k] actions on the stack, [k + 1] steps of the
    worker end the thread; no phase and no teardown phase runs, and the
    record's outcome and status stay as they are. *)
Lemma unwind_alone cbs :
  forall s e,
    pc s = Unwinding e -> exit_stack_obj s = Some cbs ->
    let s' := exec (alone (S (List.length cbs))) s in
    pc s' = Done e
    /\ option_map outcome (current_state s') = option_map outcome (current_state s)
    /\ option_map status (current_state s') = option_map status (current_state s)
    /\ phase_runs (trace s') = phase_runs (trace s)
    /\ teardown_runs (trace s') = teardown_runs (trace s).
Proof.
  induction cbs as [|c cbs IH]; intros s e Hpc Ho.
  - destruct s; simpl in *; subst. unfold exec, worker_step; simpl. auto.
  - change (exec (alone (S (List.length (c :: cbs)))) s)
      with (exec (alone (S (List.length cbs))) (worker_step s)).
    assert (Hstep : worker_step s
                    = release c (set_exit_stack_obj (Some cbs) s)).
    { destruct s as [? ? ? ? ? [|[?|]] ? ? ? [?|] ? ? ?]; simpl in *; subst;
        unfold worker_step; destruct c; reflexivity. }
    rewrite Hstep.
    destruct (IH (release c (set_exit_stack_obj (Some cbs) s)) e)
      as (H1 & H2 & H3 & H4 & H5).
    + rewrite release_pc. exact Hpc.
    + rewrite release_obj. reflexivity.
    + cbv zeta. rewrite H1, H2, H3, H4, H5, release_phase_runs, release_teardown_runs.
      destruct s as [? ? ? ? ? [|[?|]] ? ? ? [?|] ? ? ?]; destruct c; simpl; auto.
Qed.

(** What [__init__] assigned is never assigned again. *)
Lemma release_constants c s : constants (release c s) = constants s.
Proof.
  destruct s as [? ? ? ? ? [|[?|]] ? ? ? [?|] ? ? ?]; destruct c; reflexivity.
Qed.

Lemma close_loop_constants n :
  forall s, constants (close_loop n s) = constants s.
Proof.
  induction n as [|n IH]; intros s; simpl; auto.
  unfold ExitStack_pop. destruct (exit_stack_obj s) as [[|c cbs]|]; auto.
  rewrite IH, release_constants. reflexivity.
Qed.

Lemma worker_step_constants s : Inv s -> constants (worker_step s) = constants s.
Proof.
  destruct s as [tf d st l es ts ot eo p ex g k tr]; intros H.
  split_inv. subst l.
  destruct p; simpl in *; break_shapes; know_stack.
  all: unfold worker_step; simpl.
  all: try reflexivity.
  - destruct st as [[| |]|]; reflexivity.
  - unfold InitializePlugs, bind, gets; simpl.
    destruct (plug_init_raises d); reflexivity.
  - unfold try_except, next_phase, bind, gets; simpl.
    destruct (match g with Some l0 => l0 | None => engine_answers d end)
      as [|[po|] rest]; simpl.
    + run_Finalize t; reflexivity.
    + unfold ts_SetStatusFromPhaseOutcome, newly_finalized, is_finalized.
      destruct (final_status po), (finalizes po), (outcome t) eqn:Ho;
        simpl; try rewrite Ho; reflexivity.
    + reflexivity.
  - destruct tf; reflexivity.
  - unfold ExitStack_pop; simpl.
    destruct eo as [[|c cbs]|]; simpl; try reflexivity.
    destruct c, ex; reflexivity.
  - unfold ExitStack_pop; simpl.
    destruct eo as [[|c cbs]|]; simpl; try reflexivity.
    destruct c, ex; reflexivity.
Qed.

Lemma act_constants a s : Inv s -> constants (act a s) = constants s.
Proof.
  intros H. destruct a; simpl.
  - unfold call, Start, bind, gets. destruct (pc s); reflexivity.
  - apply worker_step_constants, H.
  - destruct s as [tf d st l es ts ot eo p ex g k tr].
    unfold async_raise; simpl. destruct p; try reflexivity.
    + destruct sig; simpl; try reflexivity.
      destruct ts as [|[t|]]; try reflexivity. run_Finalize t; reflexivity.
  - unfold call. rewrite Stop_eq. destruct (_lock s); [reflexivity|].
    destruct (_exit_stack s) as [|[r|]]; try reflexivity.
    change (constants (close_loop (List.length (stack_of s)) s) = constants s).
    apply close_loop_constants.
  - destruct s as [tf d st l es ts ot eo p ex g k tr].
    unfold call, Finalize, bind, getattr; simpl.
    destruct ts as [|[t|]]; try reflexivity. simpl.
    unfold is_finalized at 1. destruct (outcome t) eqn:Ho; simpl; [reflexivity|].
    run_Finalize t; try congruence. reflexivity.
  - destruct s as [tf d st l es ts ot eo p ex g k tr].
    unfold call, Wait, try_except, join, bind, gets; simpl.
    destruct interrupt; destruct p; simpl; try reflexivity.
    all: destruct ts as [|[t|]]; simpl; try reflexivity.
    all: run_Finalize t; reflexivity.
  - unfold call, GetState, getattr. destruct (_test_state s); reflexivity.
Qed.

Lemma exec_constants sched :
  forall s, Inv s -> constants (exec sched s) = constants s.
Proof.
  unfold exec. induction sched as [|a sched IH]; intros s H; simpl.
  - reflexivity.
  - rewrite IH; [apply act_constants, H | apply Inv_act, H].
Qed.

(** ** The executor's [Finalize] *)

Lemma Finalize_spec s ts :
  current_state s = Some ts ->
  (is_finalized ts = true -> Finalize s = (Return ts, s))
  /\ (is_finalized ts = false ->
      exists ts',
        ts_Finalize (Some ABORTED) ts = Some ts'
        /\ outcome ts' = Some ABORTED
        /\ Finalize s
           = (Return ts',
              set_trace (Finalized ByFinalize ABORTED :: trace s)
                (set_test_state (Assigned (Some ts')) s))).
Proof.
  destruct s as [tf d st l es [|[t|]] ot eo p ex g k tr];
    unfold current_state; simpl; try discriminate.
  intros H. injection H as ->.
  unfold Finalize, bind, getattr, the_test_state; simpl.
  unfold TestState_Finalize, bind, the_test_state, getattr, ts_Finalize. simpl.
  split; intros Hf; repeat (rewrite Hf; simpl).
  - reflexivity.
  - eexists. split; [reflexivity|]. split; reflexivity.
Qed.

(** ** The order of phases, and where the worker finalizes *)

Lemma close_loop_preserves (B : Type) (f : Executor -> B) :
  (forall c s, f (release c s) = f s) ->
  (forall v s, f (set_exit_stack_obj v s) = f s) ->
  forall n s, f (close_loop n s) = f s.
Proof.
  intros Hr Hs n. induction n as [|n IH]; intros s; simpl; [reflexivity|].
  unfold ExitStack_pop. destruct (exit_stack_obj s) as [[|c cbs]|]; try reflexivity.
  rewrite IH, Hr, Hs. reflexivity.
Qed.

Lemma release_phase_view : forall c s, phase_view (release c s) = phase_view s.
Proof. invoke_cases. Qed.

Lemma PhaseInv_view s s' : phase_view s' = phase_view s -> PhaseInv s -> PhaseInv s'.
Proof.
  unfold phase_view. intros H [H1 H2 H3 H4 H5 H6 H7 H8 H9 H10 H11].
  injection H as E1 E2 E3 E4 E5 E6 E7 E8 E9 E10 E11.
  constructor;
    rewrite ?E1, ?E2, ?E3, ?E4, ?E5, ?E6, ?E7, ?E8, ?E9, ?E10, ?E11; assumption.
Qed.

Lemma Stop_phase_view s : phase_view (call Stop s) = phase_view s.
Proof.
  unfold call. rewrite Stop_eq. destruct (_lock s); [reflexivity|].
  destruct (_exit_stack s) as [|[r|]]; try reflexivity.
  change (phase_view (close_loop (List.length (stack_of s)) s) = phase_view s).
  apply (close_loop_preserves phase_view release_phase_view). reflexivity.
Qed.

Lemma Finalize_phase_view s : phase_view (call Finalize s) = phase_view s.
Proof.
  destruct s as [tf d st l es ts ot eo p ex g k tr].
  unfold call, Finalize, bind, getattr; simpl.
  destruct ts as [|[t|]]; try reflexivity. simpl.
  unfold is_finalized at 1. destruct (outcome t) eqn:Ho; simpl; [reflexivity|].
  run_Finalize t; try congruence. reflexivity.
Qed.

Lemma Wait_phase_view i s : phase_view (call (Wait i) s) = phase_view s.
Proof.
  destruct s as [tf d st l es ts ot eo p ex g k tr].
  unfold call, Wait, try_except, join, bind, gets; simpl.
  destruct i; destruct p; simpl; try reflexivity.
  all: destruct ts as [|[t|]]; simpl; try reflexivity.
  all: run_Finalize t; reflexivity.
Qed.

Lemma GetState_phase_view s : phase_view (call GetState s) = phase_view s.
Proof. unfold call, GetState, getattr. destruct (_test_state s); reflexivity. Qed.

Lemma PhaseInv_init conf d start tf : PhaseInv (__init__ conf d start tf).
Proof.
  constructor; simpl; auto; try (intros; discriminate).
  - intros [H|H]; discriminate.
  - intros [H|H]; discriminate.
  - intros [H|[H|[H|H]]]; discriminate.
Qed.

Lemma not_nonfinal po rest :
  final_status po <> None -> ~ Forall nonfinal (po :: rest).
Proof. intros H HF. inversion HF. contradiction. Qed.

Ltac split_pinv :=
  match goal with
  | H : PhaseInv _ |- _ =>
      let P1 := fresh "P1" in let P2 := fresh "P2" in let P3 := fresh "P3" in
      let P4 := fresh "P4" in let P5 := fresh "P5" in let P6 := fresh "P6" in
      let P7 := fresh "P7" in let P8 := fresh "P8" in let P9 := fresh "P9" in
      let P10 := fresh "P10" in let P11 := fresh "P11" in
      destruct H as [P1 P2 P3 P4 P5 P6 P7 P8 P9 P10 P11]; unfold pending in *;
      simpl in P1, P2, P3, P4, P5, P6, P7, P8, P9, P10, P11
  end.

(** While the loop is open the worker has finalized nothing. *)
Ltac in_loop :=
  match goal with
  | P3 : true = true -> Forall _ _,
    P6 : true = true -> _ /\ _ |- _ =>
      specialize (P3 eq_refl);
      let A := fresh "A" in let B := fresh "B" in
      let C := fresh "C" in let D := fresh "D" in
      destruct (P6 eq_refl) as (A & B & C & D); clear P6
  end.

Ltac pfinish :=
  constructor; unfold pending; simpl; rewrite_known; simpl;
  repeat match goal with
  | H : existsb _ _ = false |- _ => rewrite H in *
  end;
  simpl;
  try (intros; discriminate);
  try (intros [?|?]; discriminate);
  try (intros [?|[?|[?|?]]]; discriminate);
  auto;
  try match goal with
  | P : ?A -> false = true /\ _ |- ?A -> _ =>
      let X := fresh in let F := fresh in
      intros X; destruct (P X) as [F _]; discriminate F
  end.

Lemma PhaseInv_worker_step s : Inv s -> PhaseInv s -> PhaseInv (worker_step s).
Proof.
  destruct s as [tf d st l es ts ot eo p ex g k tr]; intros H HP.
  split_inv. subst l. split_pinv.
  destruct p; simpl in *; break_shapes; know_stack.
  all: try (destruct P4 as [P4|P4]; [|discriminate P4]).
  all: try in_loop.
  all: unfold worker_step; simpl.
  all: try (pfinish; fail).
  - (* L133 *) destruct st as [[| |]|]; simpl; pfinish.
  - (* L134 *) unfold InitializePlugs, bind, gets; simpl.
    destruct (plug_init_raises d); simpl; pfinish.
  - (* L175 *)
    unfold try_except, next_phase, bind, gets; simpl.
    destruct (match g with Some l0 => l0 | None => engine_answers d end)
      as [|[po|] rest] eqn:Hg; simpl.
    + run_Finalize t; pfinish; try (rewrite Ht; assumption).
    + unfold ts_SetStatusFromPhaseOutcome, newly_finalized, is_finalized.
      destruct (final_status po) eqn:Hfin, (finalizes po), (outcome t) eqn:Ho;
        simpl; try rewrite Ho; simpl; pfinish;
        try (rewrite map_app, <- app_assoc; simpl; assumption);
        try (constructor; assumption);
        try (intros _ HF; exfalso; revert HF; apply not_nonfinal; congruence);
        try (intros _; apply not_nonfinal; congruence).
    + pfinish. rewrite Hg. assumption.
  - (* L189 *) destruct tf; simpl; pfinish.
  - unfold ExitStack_pop; simpl.
    destruct eo as [[|c cbs]|]; simpl; try (pfinish; fail).
    destruct c, ex; simpl; pfinish.
  - unfold ExitStack_pop; simpl.
    destruct eo as [[|c cbs]|]; simpl; try (pfinish; fail).
    destruct c, ex; simpl; pfinish.
Qed.

Lemma PhaseInv_async_raise sig s : Inv s -> PhaseInv s -> PhaseInv (async_raise sig s).
Proof.
  destruct s as [tf d st l es ts ot eo p ex g k tr]; intros H HP.
  split_inv. subst l. split_pinv.
  destruct p; simpl in *; break_shapes; know_stack.
  all: try (destruct P4 as [P4|P4]; [|discriminate P4]).
  all: try in_loop.
  all: unfold async_raise; simpl.
  all: try (destruct sig; pfinish; fail).
  - destruct sig; simpl; [pfinish|].
    run_Finalize t; pfinish; try (rewrite Ht; assumption).
  - destruct sig, e as [e|]; simpl in *; pfinish.
  - destruct sig, e as [e|]; simpl in *; pfinish.
Qed.

Lemma PhaseInv_Start s : PhaseInv s -> PhaseInv (call Start s).
Proof.
  intros H. unfold call, Start, bind, gets, raise. simpl.
  destruct (pc s) eqn:Hpc; simpl; try exact H.
  destruct s as [tf d st l es ts ot eo p ex g k tr]; simpl in Hpc; subst p.
  split_pinv. pfinish.
Qed.

Lemma PhaseInv_act a s : Inv s -> PhaseInv s -> PhaseInv (act a s).
Proof.
  intros H HP. destruct a; simpl.
  - apply PhaseInv_Start, HP.
  - apply PhaseInv_worker_step; assumption.
  - apply PhaseInv_async_raise; assumption.
  - exact (PhaseInv_view (Stop_phase_view s) HP).
  - exact (PhaseInv_view (Finalize_phase_view s) HP).
  - exact (PhaseInv_view (Wait_phase_view interrupt s) HP).
  - exact (PhaseInv_view (GetState_phase_view s) HP).
Qed.

Lemma PhaseInv_exec sched : forall s, Inv s -> PhaseInv s -> PhaseInv (exec sched s).
Proof.
  unfold exec. induction sched as [|a sched IH]; intros s H HP; simpl.
  - assumption.
  - apply IH; [apply Inv_act, H | apply PhaseInv_act; assumption].
Qed.

Lemma PhaseInv_reachable conf d start tf sched :
  PhaseInv (exec sched (__init__ conf d start tf)).
Proof. apply PhaseInv_exec; [apply Inv_init | apply PhaseInv_init]. Qed.

(** ** The worker ends *)

Lemma stack_bound (rel l : list Callback) (a b : Callback) :
  rev rel ++ l = [a; b] -> List.length l <= 2.
Proof.
  intros H. apply (f_equal (@List.length Callback)) in H.
  rewrite length_app in H. simpl in H. lia.
Qed.

(** Away from its start and its end, every statement of the worker brings
    it nearer to the end, unless it waits: for a start trigger that does not
    return, or for an answer of the phase sequence that does not come. *)
Lemma worker_step_decreases s :
  Inv s -> pc s <> NotStarted -> worker_done s = false ->
  _test_start s <> Some TriggerBlocks -> ~ In NeverAnswers (pending s) ->
  steps_left (worker_step s) < steps_left s
  /\ pc (worker_step s) <> NotStarted
  /\ ~ In NeverAnswers (pending (worker_step s)).
Proof.
  destruct s as [tf d st l es ts ot eo p ex g k tr]; intros H Hn Hd Hst Hpend.
  split_inv. subst l. unfold worker_done in Hd. unfold pending in Hpend.
  destruct p; simpl in *; try discriminate Hd; try congruence;
    break_shapes; know_stack.
  all: unfold worker_step, steps_left, pending, stack_of; simpl.
  all: try (split; [lia|split; [discriminate|exact Hpend]]).
  - destruct st as [[| |]|]; simpl; try congruence;
      (split; [lia|split; [discriminate|exact Hpend]]).
  - unfold InitializePlugs, bind, gets; simpl.
    destruct (plug_init_raises d); simpl;
      (split; [lia|split; [discriminate|exact Hpend]]).
  - unfold try_except, next_phase, bind, gets; simpl.
    pose proof (stack_bound _ _ Hs) as Hb'.
    destruct (match g with Some l0 => l0 | None => engine_answers d end)
      as [|[po|] rest]; simpl.
    + run_Finalize t; simpl; (split; [lia|split; [discriminate|intros []]]).
    + unfold ts_SetStatusFromPhaseOutcome, newly_finalized, is_finalized.
      destruct (final_status po), (finalizes po), (outcome t) eqn:Ho;
        simpl; try rewrite Ho; simpl;
        (split; [lia|split; [discriminate|]]);
        intros Hin; apply Hpend; right; exact Hin.
    + exfalso. apply Hpend. left. reflexivity.
  - destruct tf; simpl; (split; [|split; [discriminate|exact Hpend]]);
      pose proof (stack_bound _ _ Hs); lia.
  - unfold ExitStack_pop; simpl.
    destruct eo as [[|c cbs]|]; simpl;
      try (split; [lia|split; [discriminate|exact Hpend]]).
    destruct c, ex; simpl; (split; [lia|split; [discriminate|exact Hpend]]).
  - unfold ExitStack_pop; simpl.
    destruct eo as [[|c cbs]|]; simpl;
      try (split; [lia|split; [discriminate|exact Hpend]]).
    destruct c, ex; simpl; (split; [lia|split; [discriminate|exact Hpend]]).
Qed.

Lemma worker_ends n :
  forall s,
    Inv s -> pc s <> NotStarted ->
    _test_start s <> Some TriggerBlocks -> ~ In NeverAnswers (pending s) ->
    steps_left s <= n ->
    worker_done (exec (alone n) s) = true.
Proof.
  induction n as [|n IH]; intros s H Hn Hst Hpend Hle.
  - destruct s as [? ? ? ? ? ? ? ? p ? ? ? ?]; unfold steps_left in Hle;
      simpl in *. destruct p; try reflexivity; try congruence; lia.
  - destruct (worker_done s) eqn:Hd.
    + rewrite done_stable; assumption.
    + change (exec (alone (S n)) s) with (exec (alone n) (worker_step s)).
      destruct (worker_step_decreases H Hn Hd Hst Hpend) as (Hlt & Hn' & Hp').
      apply IH; [apply Inv_worker_step, H | exact Hn' | | exact Hp' | lia].
      pose proof (worker_step_constants H) as Hc. unfold constants in Hc.
      injection Hc as _ _ Hc. rewrite Hc. exact Hst.
Qed.

(** What is yet to come is among the answers of the test's sequence. *)
Lemma pending_bound s :
  PhaseInv s ->
  List.length (pending s) <= List.length (engine_answers (_test_descriptor s)).
Proof.
  intros HP. rewrite <- (pi_prefix HP), length_app. lia.
Qed.

Lemma pending_incl s x :
  PhaseInv s -> In x (pending s) -> In x (engine_answers (_test_descriptor s)).
Proof.
  intros HP Hin. rewrite <- (pi_prefix HP). apply in_or_app. right. exact Hin.
Qed.

Lemma steps_left_bound s :
  Inv s -> PhaseInv s ->
  steps_left s <= 20 + List.length (engine_answers (_test_descriptor s)).
Proof.
  intros H HP. pose proof (pending_bound HP) as Hb.
  destruct H as [_ Hs _ _ _ Hp].
  unfold steps_left. destruct (pc s); try lia.
  simpl in Hp. destruct Hp as (_ & _ & [Hr|[Hr|Hr]]); rewrite Hr in Hs;
    apply (f_equal (@List.length Callback)) in Hs; rewrite length_app in Hs;
    simpl in Hs; lia.
Qed.

(** ** A run whose plugs fail to come up *)

Lemma before_plugs_view s s' :
  phase_view s' = phase_view s -> stopped_before_plugs s -> stopped_before_plugs s'.
Proof.
  unfold phase_view, stopped_before_plugs. intros H.
  injection H as E1 E2 _ _ E5 _ E7 _. rewrite E1, E2, E5, E7. auto.
Qed.

Lemma before_plugs_worker_step s :
  Inv s -> plug_init_raises (_test_descriptor s) = true ->
  stopped_before_plugs s -> stopped_before_plugs (worker_step s).
Proof.
  unfold stopped_before_plugs.
  destruct s as [tf d st l es ts ot eo p ex g k tr]; intros H Hp (B1 & B2 & B3 & B4).
  split_inv. subst l.
  destruct p; simpl in *; try discriminate B1; break_shapes; know_stack.
  all: unfold worker_step; simpl; auto.
  1: destruct st as [[| |]|]; simpl; auto.
  1: unfold InitializePlugs, bind, gets; simpl; rewrite Hp; simpl; auto.
  all: destruct e; try discriminate; unfold ExitStack_pop; simpl;
    destruct eo as [[|c cbs]|]; simpl; auto; destruct c, ex; simpl; auto.
Qed.

Lemma before_plugs_async_raise sig s :
  stopped_before_plugs s -> stopped_before_plugs (async_raise sig s).
Proof.
  unfold stopped_before_plugs.
  destruct s as [tf d st l es ts ot eo p ex g k tr]; intros (B1 & B2 & B3 & B4).
  destruct p; simpl in *; try discriminate B1; unfold async_raise; simpl; auto.
Qed.

Lemma before_plugs_exec sched :
  forall s,
    Inv s -> plug_init_raises (_test_descriptor s) = true ->
    stopped_before_plugs s -> stopped_before_plugs (exec sched s).
Proof.
  unfold exec. induction sched as [|a sched IH]; intros s H Hp HB; simpl.
  - assumption.
  - apply IH.
    + apply Inv_act, H.
    + pose proof (act_constants a H) as Hc. unfold constants in Hc.
      injection Hc as _ Hc _. rewrite Hc. exact Hp.
    + destruct a; simpl.
      * unfold stopped_before_plugs in *.
        destruct s as [? ? ? ? ? ? ? ? p ? ? ? ?]; destruct p; simpl in *; auto.
      * apply before_plugs_worker_step; assumption.
      * apply before_plugs_async_raise; assumption.
      * exact (before_plugs_view (Stop_phase_view s) HB).
      * exact (before_plugs_view (Finalize_phase_view s) HB).
      * exact (before_plugs_view (Wait_phase_view interrupt s) HB).
      * exact (before_plugs_view (GetState_phase_view s) HB).
Qed.

(** ** After an exception *)

(** Once the worker unwinds with an exception it stays so, and nothing
    executes the teardown phase any more. *)
Lemma raised_act a s :
  raised (pc s) = true ->
  raised (pc (act a s)) = true
  /\ teardown_runs (trace (act a s)) = teardown_runs (trace s).
Proof.
  intros Hr.
  assert (Hview : forall s', phase_view s' = phase_view s ->
                    raised (pc s') = true
                    /\ teardown_runs (trace s') = teardown_runs (trace s)).
  { unfold phase_view. intros s' H. injection H as E1 _ _ _ _ _ E7 _.
    rewrite E1, E7. auto. }
  destruct a; simpl.
  - unfold call, Start, bind, gets. destruct (pc s); try discriminate; auto.
  - destruct s as [tf d st l es ts ot eo p ex g k tr].
    destruct p as [| | | | | | | | | | | | | | | | |[e|]|[e|]];
      try discriminate; unfold worker_step; simpl; auto.
    all: unfold ExitStack_pop; simpl.
    all: destruct eo as [[|c cbs]|]; simpl; auto.
    all: destruct ts as [|[t|]], c, ex; simpl; auto.
  - destruct s as [tf d st l es ts ot eo p ex g k tr].
    destruct p as [| | | | | | | | | | | | | | | | |[e|]|[e|]];
      try discriminate; unfold async_raise; simpl; auto.
  - apply Hview, Stop_phase_view.
  - apply Hview, Finalize_phase_view.
  - apply Hview, Wait_phase_view.
  - apply Hview, GetState_phase_view.
Qed.

Lemma raised_exec sched :
  forall s,
    raised (pc s) = true ->
    raised (pc (exec sched s)) = true
    /\ teardown_runs (trace (exec sched s)) = teardown_runs (trace s).
Proof.
  unfold exec. induction sched as [|a sched IH]; intros s Hr; simpl; [auto|].
  destruct (raised_act a s Hr) as [H1 H2].
  destruct (IH _ H1) as [H3 H4]. split; [exact H3|congruence].
Qed.
(** In every run the teardown phase has been executed not at all, or once
    and as [__init__] configured it. *)
Lemma teardown_runs_cases s :
  Inv s ->
  teardown_runs (trace s) = [] \/ teardown_runs (trace s) = configured_teardown s.
Proof.
  intros [_ _ _ Ht _ _]. unfold teardown_ok in Ht.
  destruct (pc s) as [| | | | | | | | | | | | | | | | |[e|]|[e|]]; auto.
Qed.

Lemma reachable_descriptor conf d start tf sched :
  _test_descriptor (exec sched (__init__ conf d start tf)) = d
  /\ _teardown_function (exec sched (__init__ conf d start tf))
     = _teardown_function (__init__ conf d start tf).
Proof.
  pose proof (@exec_constants sched _ (Inv_init conf d start tf)) as Hc.
  unfold constants in Hc. injection Hc as H1 H2 _. auto.
Qed.

Lemma existsb_In (f : Event -> bool) e tr :
  In e tr -> f e = true -> existsb f tr = true.
Proof. intros Hin Hf. apply existsb_exists. exists e. auto. Qed.

(** ** The claims *)

(** C1. For every run, when the worker procedure has ended (normally, after
    an external stop, or with an unhandled failure), the release actions
    registered on the cleanup stack have each been run exactly once, in the
    reverse of the order in which they were registered; in particular the
    phase executor's Stop, registered second, has run before the plug
    teardown, registered first. *)
Theorem C1_release_reverse_order_exactly_once conf d start tf sched :
  let s := exec sched (__init__ conf d start tf) in
  worker_done s = true ->
  released s = rev (registered s)
  /\ (forall c, In c (registered s) -> occurrences c (released s) = 1)
  /\ (registered s = [TearDownPlugs_cb; ExecutorStop_cb] ->
      released s = [ExecutorStop_cb; TearDownPlugs_cb]).
Proof.
  intros s Hdone.
  pose proof (Inv_reachable conf d start tf sched) as H. fold s in H.
  destruct H as [_ Hs _ _ _ Hp].
  unfold worker_done in Hdone. destruct (pc s) eqn:Hpc; try discriminate.
  simpl in Hp. destruct Hp as (Hstack & _ & Hreg).
  rewrite Hstack, app_nil_r in Hs.
  assert (Hrel : released s = rev (registered s)).
  { unfold released, registered. rewrite rev_involutive. exact Hs. }
  split; [exact Hrel|]. split.
  - intros c Hin. rewrite Hrel. unfold registered in *.
    destruct Hreg as [Hr|[Hr|Hr]]; rewrite Hr in *; simpl in Hin.
    + contradiction.
    + destruct Hin as [<-|[]]. reflexivity.
    + destruct Hin as [<-|[<-|[]]]; reflexivity.
  - intros Hr. rewrite Hrel, Hr. reflexivity.
Qed.

(** A run that is stopped from outside while its phases execute: both
    actions were registered, and [Stop] ran them in reverse order. *)
Lemma C1_witness :
  let s := exec (AStart :: alone 15 ++ [AStop; AAsync Killed] ++ alone 1)
             sample_executor in
  worker_done s = true
  /\ registered s = [TearDownPlugs_cb; ExecutorStop_cb]
  /\ released s = rev (registered s)
  /\ (forall c, In c (registered s) -> occurrences c (released s) = 1)
  /\ (registered s = [TearDownPlugs_cb; ExecutorStop_cb] ->
      released s = [ExecutorStop_cb; TearDownPlugs_cb]).
Proof.
  split; [reflexivity|]. split; [reflexivity|].
  apply (@C1_release_reverse_order_exactly_once sample_conf sample_test
           sample_start (Some sample_teardown)
           (AStart :: alone 15 ++ [AStop; AAsync Killed] ++ alone 1)).
  reflexivity.
Defined.

(** C5. For every teardown function supplied at construction, the timeout
    of the teardown phase is the configured bound [teardown_timeout_s],
    whatever timeout the supplied phase declares itself; and that is the
    timeout every execution of the teardown phase carries. *)
Theorem C5_teardown_timeout_forced conf d start f :
  (exists p,
      _teardown_function (__init__ conf d start (Some f)) = Some p
      /\ timeout_s (options p) = Some (teardown_timeout_s conf)
      /\ phase_name p = phase_name (WrapOrCopy f)
      /\ phase_yields p = phase_yields (WrapOrCopy f))
  /\ forall sched p,
       In p (teardown_runs (trace (exec sched (__init__ conf d start (Some f))))) ->
       timeout_s (options p) = Some (teardown_timeout_s conf).
Proof.
  split.
  - eexists. simpl. repeat split.
  - intros sched p Hin.
    pose proof (Inv_reachable conf d start (Some f) sched) as H.
    pose proof (@exec_constants sched _ (Inv_init conf d start (Some f))) as Hc.
    unfold constants in Hc. injection Hc as Hc _ _.
    destruct (teardown_runs_cases H) as [Ht|Ht]; rewrite Ht in Hin;
      [contradiction|].
    unfold configured_teardown in Hin. rewrite Hc in Hin. simpl in Hin.
    destruct Hin as [<-|[]]. reflexivity.
Qed.

(** The sample teardown declares 600 seconds; it runs with the default 3. *)
Lemma C5_witness :
  let s := exec (AStart :: alone 21) sample_executor in
  teardown_runs (trace s) = [set_timeout_s 3 (WrapOrCopy sample_teardown)]
  /\ timeout_s (options (set_timeout_s 3 (WrapOrCopy sample_teardown)))
     = Some (teardown_timeout_s sample_conf).
Proof.
  split; [reflexivity|].
  apply (proj2 (C5_teardown_timeout_forced sample_conf sample_test
                  sample_start sample_teardown)
           (AStart :: alone 21)).
  vm_compute. left. reflexivity.
Defined.

(** C9. While the worker has not yet assigned [_exit_stack] -- [Start] was
    not called, or the worker stands before its first statement -- [Stop]
    reads an attribute that was never assigned and raises AttributeError;
    it closes nothing, asks for no kill, and leaves the executor as it was. *)
Theorem C9_Stop_before_the_worker_began conf d start tf sched :
  let s := exec sched (__init__ conf d start tf) in
  pc s = NotStarted \/ pc s = L114 ->
  _exit_stack s = Unassigned /\ Stop s = (Raise AttributeError, s).
Proof.
  intros s Hpc.
  pose proof (Inv_reachable conf d start tf sched) as H. fold s in H.
  destruct H as [Hl _ _ _ _ Hp].
  assert (He : shape (_exit_stack s) = Missing /\ _lock s = false).
  { destruct Hpc as [Hpc|Hpc]; rewrite Hpc in *; simpl in *;
      apply pair_equal_spec in Hp; destruct Hp as [Hp _];
      apply pair_equal_spec in Hp; destruct Hp as [Hp _];
      apply pair_equal_spec in Hp; destruct Hp as [Hp _]; auto. }
  destruct He as [He Hlock].
  rewrite Stop_eq, Hlock.
  destruct (_exit_stack s) as [|[r|]]; try discriminate. auto.
Qed.

Lemma C9_witness :
  (pc (exec [AStart] sample_executor) = NotStarted
   \/ pc (exec [AStart] sample_executor) = L114)
  /\ _exit_stack (exec [AStart] sample_executor) = Unassigned
  /\ Stop (exec [AStart] sample_executor)
     = (Raise AttributeError, exec [AStart] sample_executor).
Proof.
  split; [right; reflexivity|].
  apply (@C9_Stop_before_the_worker_began sample_conf sample_test
           sample_start (Some sample_teardown) [AStart]).
  right. reflexivity.
Defined.

(** [Stop] never assigns the handle. *)
Lemma Stop_keeps_handle s : _exit_stack (snd (Stop s)) = _exit_stack s.
Proof.
  rewrite Stop_eq. destruct (_lock s); [reflexivity|].
  destruct (_exit_stack s) as [|[r|]] eqn:He; simpl; auto.
  unfold stack_of. destruct (exit_stack_obj s) as [cbs|] eqn:Ho; simpl; auto.
  destruct (close_loop_spec s Ho) as (_ & _ & _ & _ & _ & _ & H & _).
  rewrite H. exact He.
Qed.

(** C10. [Stop] closes the installed exit stack but never resets the
    [_exit_stack] handle, so from the moment the worker has installed the
    stack the handle stays an ExitStack object, which is true; the worker's
    check [if not self._exit_stack] at line 137 therefore always finds it,
    and the branch that tears the plugs down and raises TestStopError is
    never taken in any run. *)
Theorem C10_guarded_branch_unreachable :
  (forall s, _exit_stack (snd (Stop s)) = _exit_stack s)
  /\ forall conf d start tf sched,
       let s := exec sched (__init__ conf d start tf) in
       (in_with_block (pc s) = true -> pc s <> L124 ->
        _exit_stack s = Assigned (Some ExitStackObj))
       /\ (pc s = L136 -> truthy_attr (_exit_stack s) = true)
       /\ best_effort_teardowns (trace s) = 0
       /\ pc s <> Unwinding (Some TestStopError)
       /\ pc s <> Done (Some TestStopError).
Proof.
  split; [exact Stop_keeps_handle|].
  intros conf d start tf sched s.
  pose proof (Inv_reachable conf d start tf sched) as H. fold s in H.
  destruct H as [_ _ _ _ Hb Hp].
  assert (Hin : in_with_block (pc s) = true -> pc s <> L124 ->
                _exit_stack s = Assigned (Some ExitStackObj)).
  { intros Hw Hn.
    assert (He : shape (_exit_stack s) = IsObject).
    { destruct (pc s); simpl in *; try discriminate; try congruence;
        repeat match goal with
        | H : _ /\ _ |- _ => destruct H
        | H : (_, _) = (_, _) |- _ => apply pair_equal_spec in H
        end; auto. }
    destruct (_exit_stack s) as [|[[]|]]; try discriminate. reflexivity. }
  split; [exact Hin|]. split.
  - intros Hpc. rewrite Hin; [reflexivity| |]; rewrite Hpc; [reflexivity|discriminate].
  - split; [exact Hb|].
    destruct (pc s); simpl in Hp; split; try discriminate;
      intros Hc; injection Hc as ->; destruct Hp as (_ & Hp & _); apply Hp; reflexivity.
Qed.

(** A run in which [Stop] comes after the stack was installed and before the
    check: the check still finds the stack. *)
Lemma C10_witness :
  let s := exec (AStart :: alone 5 ++ [AStop] ++ alone 3) sample_executor in
  pc s = L136
  /\ kill_requested s = true
  /\ _exit_stack s = Assigned (Some ExitStackObj)
  /\ truthy_attr (_exit_stack s) = true
  /\ pc (worker_step s) = L146.
Proof.
  split; [reflexivity|]. split; [reflexivity|].
  pose proof (proj2 C10_guarded_branch_unreachable sample_conf sample_test
                sample_start (Some sample_teardown)
                (AStart :: alone 5 ++ [AStop] ++ alone 3)) as H.
  cbv zeta in H. destruct H as (H1 & H2 & _).
  split; [apply H1; [reflexivity|discriminate]|].
  split; [apply H2; reflexivity|reflexivity].
Defined.

(** When a TestState is there and not yet finalized, an interrupted [Wait]
    finalizes it as ABORTED and hands the interrupt on. *)
Lemma Wait_interrupt_unfinalized s ts :
  pc s <> NotStarted -> current_state s = Some ts -> is_finalized ts = false ->
  exists ts',
    ts_Finalize (Some ABORTED) ts = Some ts'
    /\ outcome ts' = Some ABORTED
    /\ Wait true s
       = (Raise KeyboardInterrupt,
          set_trace (Finalized ByWait ABORTED :: trace s)
            (set_test_state (Assigned (Some ts')) s)).
Proof.
  destruct s as [tf d st l es [|[t|]] ot eo p ex g k tr];
    unfold current_state; simpl; try discriminate.
  intros Hp H Hf. injection H as ->.
  unfold Wait, try_except, bind, gets; simpl.
  unfold ts_Finalize. rewrite Hf. eexists. split; [reflexivity|]. split; [reflexivity|].
  destruct p; try (exfalso; apply Hp; reflexivity);
    simpl; unfold TestState_Finalize, bind, the_test_state, getattr, ts_Finalize;
    simpl; rewrite Hf; reflexivity.
Qed.

(** C7. A keyboard interrupt that arrives while [Wait] blocks is to leave
    the record finalized and to be handed on to the caller.  The handler of
    lines 102-106 calls [self._test_state.Finalize] unguarded, unlike
    [Finalize] (lines 89-94), so on these two inputs the interrupt is lost:
    with the record already finalized by the worker, whose teardown phase is
    still to run, the caller gets TestAlreadyFinalized; with the TestState
    not yet created, it gets AttributeError. *)
Theorem C7_Wait_interrupt_lost :
  (let s := exec (AStart :: alone 17) sample_executor in
   pc s = L189
   /\ option_map outcome (current_state s) = Some (Some PASS)
   /\ Wait true s
      = (Raise TestAlreadyFinalized, set_trace (FinalizeRejected ByWait :: trace s) s)
   /\ fst (Finalize s) <> Raise TestAlreadyFinalized)
  /\ (let s := exec (AStart :: alone 3) sample_executor in
      pc s = L119
      /\ _test_state s = Assigned None
      /\ Wait true s = (Raise AttributeError, s)
      /\ fst (Finalize s) = Raise TestStopError).
Proof.
  split; cbv zeta.
  - split; [vm_compute; reflexivity|]. split; [vm_compute; reflexivity|].
    split; [vm_compute; reflexivity|]. vm_compute. discriminate.
  - split; [vm_compute; reflexivity|]. split; [vm_compute; reflexivity|].
    split; vm_compute; reflexivity.
Qed.




(** C8. [GetState] is to be callable at any time, returning None before a
    run starts.  [__init__] (lines 53-65) assigns no [_test_state]: the
    attribute is first assigned at line 116, by the worker.  So on every
    executor fresh from [__init__], and still when the worker has been
    started and stands before line 116, [GetState] raises AttributeError
    where None was to be returned; once line 116 has run it returns None.
    It changes nothing in either case. *)
Theorem C8_GetState_before_the_run :
  (forall conf d start tf,
      GetState (__init__ conf d start tf)
      = (Raise AttributeError, __init__ conf d start tf))
  /\ (let s := exec [AStart] sample_executor in
      pc s = L114 /\ GetState s = (Raise AttributeError, s))
  /\ (let s := exec (AStart :: alone 1) sample_executor in
      pc s = L116 /\ GetState s = (Raise AttributeError, s))
  /\ (let s := exec (AStart :: alone 2) sample_executor in
      pc s = L117 /\ GetState s = (Return None, s)).
Proof.
  split; [intros; reflexivity|].
  split; [split; reflexivity|]. split; split; reflexivity.
Qed.

(** C4. A [Stop] that runs before the worker installs the stack is to make
    the worker find the stack absent at its guarded check, tear the plugs
    down and fail with TestStopError.  [Stop] (lines 74-77) clears nothing,
    and before line 126 it finds the handle None and closes nothing; the
    worker then installs the stack at line 126 and its check at line 137
    finds it.  On the sample test, with [Stop] called right after line 116:
    if the kill that [Stop] asks for does not land, the worker passes the
    check, executes both phases and the teardown phase and ends normally,
    the record finalized as PASS; if the kill lands after the plugs came up
    and before the check, the worker ends with the plugs initialized and
    never torn down.  In neither run is the guarded branch taken. *)
Theorem C4_Stop_before_install_is_lost :
  (let s := exec (AStart :: alone 2 ++ [AStop]) sample_executor in
   pc s = L117 /\ _exit_stack s = Assigned None
   /\ kill_requested s = true /\ released s = [])
  /\ (let s := exec (AStart :: alone 2 ++ [AStop] ++ alone 6) sample_executor in
      pc s = L136 /\ truthy_attr (_exit_stack s) = true
      /\ pc (worker_step s) = L146)
  /\ (let s := exec (AStart :: alone 2 ++ [AStop] ++ alone 19) sample_executor in
      pc s = Done None
      /\ best_effort_teardowns (trace s) = 0
      /\ phase_runs (trace s) = [goes_on; goes_on]
      /\ List.length (teardown_runs (trace s)) = 1
      /\ option_map outcome (current_state s) = Some (Some PASS))
  /\ (let s := exec (AStart :: alone 2 ++ [AStop] ++ alone 6
                       ++ [AAsync Killed] ++ alone 1) sample_executor in
      pc s = Done (Some ThreadTerminationError)
      /\ best_effort_teardowns (trace s) = 0
      /\ released s = []
      /\ option_map plug_manager (current_state s)
         = Some {| plugs_initialized := true; plug_teardowns := 0 |}).
Proof.
  split; [|split; [|split]]; cbv zeta.
  - repeat split; vm_compute; reflexivity.
  - repeat split; vm_compute; reflexivity.
  - repeat split; vm_compute; reflexivity.
  - repeat split; vm_compute; reflexivity.
Qed.


(** An exception raised from outside while the worker is in the body of
    the [with] block makes it unwind with an exception, the teardown phase
    not executed. *)
Lemma async_in_body sig s :
  Inv s -> in_with_block (pc s) = true ->
  raised (pc (async_raise sig s)) = true
  /\ teardown_runs (trace (async_raise sig s)) = [].
Proof.
  destruct s as [tf d st l es ts ot eo p ex g k tr]; intros H Hb.
  split_inv. subst l.
  destruct p; simpl in *; try discriminate Hb; break_shapes; know_stack.
  all: unfold async_raise; simpl; auto.
  destruct sig; simpl; auto.
  run_Finalize t; simpl; auto.
Qed.





(** C6, as stated: a configured teardown is executed whenever phase
    iteration ends, also when the run was interrupted.  It is not: with a
    keyboard interrupt caught in the phase loop the worker finalizes the
    record as ABORTED, re-raises, and ends without having run the teardown
    phase. *)
Lemma C6_counterexample :
  let s := exec (AStart :: alone 15 ++ [AAsync Interrupted] ++ alone 3)
             sample_executor in
  pc s = Done (Some KeyboardInterrupt)
  /\ _teardown_function s <> None
  /\ option_map outcome (current_state s) = Some (Some ABORTED)
  /\ teardown_runs (trace s) = [].
Proof.
  cbv zeta. split; [vm_compute; reflexivity|].
  split; [vm_compute; discriminate|]. split; vm_compute; reflexivity.
Qed.

(** C6, amended.  In every run with a teardown function configured, the
    teardown phase is executed at most once, always as [__init__] set it up
    (the timeout forced), and only by the statement of line 190: not while
    the worker is in the body of the [with] block before that line, and once
    when the worker has come out of [_ExecuteTestPhases] without an
    exception, whatever outcomes the phases had.  It is never executed when
    an exception leaves [_ExecuteTestPhases] before line 190: not when the
    handler of line 184 ran or the Finalize of line 180 was rejected, not
    after an exception raised from outside anywhere in the body, nor at any
    later time once the worker unwinds with an exception. *)
Theorem C6_teardown_amended conf d start f sched :
  let forced := set_timeout_s (teardown_timeout_s conf) (WrapOrCopy f) in
  let s := exec sched (__init__ conf d start (Some f)) in
  (teardown_runs (trace s) = [] \/ teardown_runs (trace s) = [forced])
  /\ (in_with_block (pc s) = true -> teardown_runs (trace s) = [])
  /\ (pc s = L189 -> teardown_runs (trace (worker_step s)) = [forced])
  /\ (pc s = Unwinding None \/ pc s = Done None ->
      teardown_runs (trace s) = [forced])
  /\ (forall e,
         In e (trace s) -> rejected_180 e = true \/ handler_184 e = true ->
         raised (pc s) = true /\ teardown_runs (trace s) = [])
  /\ (in_with_block (pc s) = true ->
      forall sig sched',
        teardown_runs (trace (exec sched' (async_raise sig s))) = [])
  /\ (raised (pc s) = true ->
      forall sched',
        teardown_runs (trace (exec sched' s)) = teardown_runs (trace s)).
Proof.
  intros forced s.
  pose proof (Inv_reachable conf d start (Some f) sched) as H. fold s in H.
  pose proof (PhaseInv_reachable conf d start (Some f) sched) as HP. fold s in HP.
  destruct (reachable_descriptor conf d start (Some f) sched) as [_ Htf].
  fold s in Htf. simpl in Htf. fold forced in Htf.
  assert (Hconf : configured_teardown s = [forced]).
  { unfold configured_teardown. rewrite Htf. reflexivity. }
  assert (Hbody : in_with_block (pc s) = true -> teardown_runs (trace s) = []).
  { intros Hb. pose proof (inv_teardown H) as Ht. unfold teardown_ok in Ht.
    destruct (pc s) as [| | | | | | | | | | | | | | | | |[e|]|[e|]];
      try discriminate Hb; exact Ht. }
  split; [|split; [|split; [|split; [|split; [|split]]]]].
  - rewrite <- Hconf. apply teardown_runs_cases, H.
  - exact Hbody.
  - intros Hpc.
    assert (Hruns : teardown_runs (trace s) = [])
      by (apply Hbody; rewrite Hpc; reflexivity).
    clear - Hpc Htf Hruns.
    destruct s as [tf0 ? ? ? ? ? ? ? p ? ? ? tr]; simpl in *. subst p tf0.
    unfold worker_step; simpl. rewrite Hruns. reflexivity.
  - intros Hpc. rewrite <- Hconf.
    pose proof (inv_teardown H) as Ht. unfold teardown_ok in Ht.
    destruct Hpc as [Hpc|Hpc]; rewrite Hpc in Ht; exact Ht.
  - intros e Hin He.
    assert (Hex : existsb rejected_180 (trace s) = true
                  \/ existsb handler_184 (trace s) = true)
      by (destruct He as [He|He]; [left|right]; exact (@existsb_In _ _ _ Hin He)).
    destruct (pi_raised HP Hex) as (R1 & R2 & _). auto.
  - intros Hb sig sched'.
    destruct (async_in_body sig H Hb) as [A1 A2].
    destruct (raised_exec sched' _ A1) as [_ R]. rewrite R. exact A2.
  - intros Hr sched'. exact (proj2 (raised_exec sched' s Hr)).
Qed.

(** An undisturbed run of the sample test executes the teardown phase once,
    with the forced timeout; the run of the interrupted worker never does. *)
Lemma C6_witness :
  (let s := exec (AStart :: alone 21) sample_executor in
   pc s = Done None
   /\ teardown_runs (trace s) = [set_timeout_s 3 (WrapOrCopy sample_teardown)])
  /\ (let s := exec (AStart :: alone 15 ++ [AAsync Interrupted] ++ alone 3)
                 sample_executor in
      In (Finalized ByWorkerInterrupt ABORTED) (trace s)
      /\ raised (pc s) = true /\ teardown_runs (trace s) = []).
Proof.
  split; cbv zeta.
  - split; [reflexivity|].
    pose proof (@C6_teardown_amended sample_conf sample_test sample_start
                  sample_teardown (AStart :: alone 21)) as (_ & _ & _ & H4 & _).
    apply H4. right. reflexivity.
  - pose proof (@C6_teardown_amended sample_conf sample_test sample_start
                  sample_teardown
                  (AStart :: alone 15 ++ [AAsync Interrupted] ++ alone 3))
      as (_ & _ & _ & _ & H5 & _).
    assert (Hin : In (Finalized ByWorkerInterrupt ABORTED)
                    (trace (exec (AStart :: alone 15 ++ [AAsync Interrupted] ++ alone 3)
                              sample_executor))).
    { vm_compute. right. right. left. reflexivity. }
    split; [exact Hin|].
    exact (H5 _ Hin (or_intror eq_refl)).
Defined.

(** ** Further properties of the executor *)

(** X1. A worker that is unwinding its ExitStack or has ended does not
    hold the lock, so a [Stop] never waits for it; and after an exception
    raised from outside, wherever it lands, also inside the locked block of
    lines 136-149, the worker does not hold the lock. *)
Theorem X1_lock_free_when_unwinding conf d start tf sched :
  let s := exec sched (__init__ conf d start tf) in
  match pc s with
  | Unwinding _ | Done _ => _lock s = false /\ blocked (fst (Stop s)) = false
  | _ => forall sig, _lock (async_raise sig s) = false
  end.
Proof.
  intros s.
  pose proof (Inv_reachable conf d start tf sched) as H. fold s in H.
  assert (Hasync : forall sig, _lock (async_raise sig s) = false).
  { intros sig. pose proof (Inv_async_raise sig H) as H'.
    rewrite (inv_lock H').
    pose proof (inv_lock H) as Hl. clear - Hl.
    destruct s as [? ? ? l ? ts ? ? p ? ? ? ?]; simpl in *.
    unfold async_raise; simpl.
    destruct p; simpl; try reflexivity.
    destruct sig; simpl; try reflexivity.
    destruct ts as [|[t|]]; simpl; try reflexivity.
    run_Finalize t; reflexivity. }
  pose proof (inv_lock H) as Hl.
  destruct (pc s) eqn:Hpc; try exact Hasync; simpl in Hl;
    (split; [exact Hl|]); rewrite Stop_eq, Hl;
    destruct (_exit_stack s) as [|[r|]]; reflexivity.
Qed.

(** X2. Once started, the worker ends, provided nothing it waits for stays
    away: if the start trigger is not one that never returns and the phase
    sequence always answers, then from any point of any run, if only the
    worker moves, it has ended after at most 20 statements plus one per
    answer of the sequence, with the lock free and the cleanup stack empty,
    and a [Wait] then returns. *)
Theorem X2_worker_ends_unless_it_waits conf d start tf sched :
  start <> Some TriggerBlocks -> ~ In NeverAnswers (engine_answers d) ->
  let s := exec sched (__init__ conf d start tf) in
  pc s <> NotStarted ->
  let s' := exec (alone (20 + List.length (engine_answers d))) s in
  worker_done s' = true
  /\ _lock s' = false
  /\ stack_of s' = []
  /\ Wait false s' = (Return tt, s').
Proof.
  intros Hst Hans s Hn s'.
  pose proof (Inv_reachable conf d start tf sched) as H. fold s in H.
  pose proof (PhaseInv_reachable conf d start tf sched) as HP. fold s in HP.
  pose proof (steps_left_bound H HP) as Hb.
  pose proof (@exec_constants sched _ (Inv_init conf d start tf)) as Hc.
  fold s in Hc. unfold constants in Hc. simpl in Hc. injection Hc as _ Hd Hstart.
  rewrite Hd in Hb.
  assert (Hdone : worker_done s' = true).
  { apply worker_ends; try assumption.
    - rewrite Hstart. exact Hst.
    - intros Hin. apply Hans. rewrite <- Hd. exact (@pending_incl _ _ HP Hin). }
  pose proof (Inv_exec (alone (20 + List.length (engine_answers d))) H) as H'.
  fold s' in H'.
  destruct H' as [Hl _ _ _ _ Hp].
  split; [exact Hdone|].
  unfold worker_done in Hdone. destruct (pc s') eqn:Hpc; try discriminate.
  split; [rewrite Hl; reflexivity|].
  split; [exact (proj1 Hp)|].
  unfold Wait, try_except, join, bind, gets. rewrite Hpc. reflexivity.
Qed.

(** A run stopped in the middle of its phases, the kill never landing. *)
Lemma X2_witness :
  sample_start <> Some TriggerBlocks
  /\ ~ In NeverAnswers (engine_answers sample_test)
  /\ let s := exec (AStart :: alone 15 ++ [AStop]) sample_executor in
     pc s <> NotStarted
     /\ let s' := exec (alone (20 + List.length (engine_answers sample_test))) s in
        worker_done s' = true
        /\ _lock s' = false
        /\ stack_of s' = []
        /\ Wait false s' = (Return tt, s').
Proof.
  assert (H1 : sample_start <> Some TriggerBlocks) by (vm_compute; discriminate).
  assert (H2 : ~ In NeverAnswers (engine_answers sample_test)).
  { simpl. intros [Hc|[Hc|[]]]; discriminate Hc. }
  split; [exact H1|]. split; [exact H2|].
  split; [vm_compute; discriminate|].
  apply (@X2_worker_ends_unless_it_waits sample_conf sample_test sample_start
           (Some sample_teardown) (AStart :: alone 15 ++ [AStop]) H1 H2).
  vm_compute. discriminate.
Defined.

Lemma set_kill_twice s :
  set_kill_requested true (set_kill_requested true s) = set_kill_requested true s.
Proof. destruct s; reflexivity. Qed.

(** X3. [Stop] is idempotent: whatever the executor's state, a second
    [Stop] right after a first one leaves the executor exactly as the first
    one left it; in particular it runs no release action again. *)
Theorem X3_Stop_idempotent s :
  snd (Stop (snd (Stop s))) = snd (Stop s)
  /\ fst (Stop (snd (Stop s))) = fst (Stop s).
Proof.
  rewrite (Stop_eq s).
  destruct (_lock s) eqn:Hl; simpl.
  { rewrite Stop_eq, Hl. auto. }
  destruct (_exit_stack s) as [|[r|]] eqn:He; simpl.
  - rewrite Stop_eq, Hl, He. auto.
  - set (s1 := close_loop (List.length (stack_of s)) s).
    assert (Hl1 : _lock s1 = false).
    { unfold s1. rewrite (close_loop_preserves _lock release_lock); auto. }
    assert (He1 : _exit_stack s1 = Assigned (Some r)).
    { unfold s1. rewrite (close_loop_preserves _exit_stack release_exit_stack); auto. }
    assert (Hs1 : stack_of s1 = []).
    { unfold s1, stack_of. destruct (exit_stack_obj s) as [cbs|] eqn:Ho.
      - destruct (close_loop_spec s Ho) as (H & _). rewrite H. reflexivity.
      - simpl. rewrite Ho. reflexivity. }
    rewrite Stop_eq. simpl. rewrite Hl1, He1.
    change (stack_of (set_kill_requested true s1)) with (stack_of s1).
    rewrite Hs1. simpl. rewrite set_kill_twice. auto.
  - rewrite Stop_eq. simpl. rewrite Hl, He. rewrite set_kill_twice. auto.
Qed.

(** X4. [Finalize] on an executor whose worker has not yet created the
    TestState fails and changes nothing: with TestStopError once the worker
    has set [_test_state] to None (line 116), and with AttributeError before
    that, the attribute not being assigned by [__init__]. *)
Theorem X4_Finalize_without_TestState conf d start tf sched :
  let s := exec sched (__init__ conf d start tf) in
  match pc s with
  | NotStarted | L114 | L116 => Finalize s = (Raise AttributeError, s)
  | L117 | L119 | L124 | L128 => Finalize s = (Raise TestStopError, s)
  | _ => True
  end.
Proof.
  intros s.
  pose proof (Inv_reachable conf d start tf sched) as H. fold s in H.
  destruct H as [_ _ _ _ _ Hp].
  unfold Finalize, bind, getattr.
  destruct (pc s); simpl in *; auto;
    repeat match goal with
    | H : _ /\ _ |- _ => destruct H
    | H : (_, _) = (_, _) |- _ => apply pair_equal_spec in H
    end;
    destruct (_test_state s) as [|[t|]]; simpl in *; try discriminate; reflexivity.
Qed.

(** X5. An executor built without a teardown function never executes a
    teardown phase, in any run. *)
Theorem X5_no_teardown_function_no_teardown conf d start sched :
  teardown_runs (trace (exec sched (__init__ conf d start None))) = [].
Proof.
  pose proof (Inv_reachable conf d start None sched) as H.
  destruct (reachable_descriptor conf d start None sched) as [_ Ht].
  destruct (teardown_runs_cases H) as [Hr|Hr]; rewrite Hr; [reflexivity|].
  unfold configured_teardown. rewrite Ht. reflexivity.
Qed.

(** X6. When [InitializePlugs] fails, nothing that comes after it happens,
    whatever the controller does: no release action is registered or run, the
    plugs are not torn down, no phase and no teardown phase is executed, and
    the worker can only end with an exception. *)
Theorem X6_plug_failure_stops_the_run conf d start tf sched :
  plug_init_raises d = true ->
  let s := exec sched (__init__ conf d start tf) in
  registered s = [] /\ released s = []
  /\ best_effort_teardowns (trace s) = 0
  /\ phase_runs (trace s) = []
  /\ teardown_runs (trace s) = []
  /\ pc s <> Done None.
Proof.
  intros Hp s.
  pose proof (Inv_reachable conf d start tf sched) as H. fold s in H.
  destruct (@before_plugs_exec sched (__init__ conf d start tf)
              (Inv_init conf d start tf) Hp) as (B1 & B2 & B3 & B4).
  { unfold stopped_before_plugs. simpl. auto. }
  fold s in B1, B2, B3, B4.
  destruct H as [_ Hs _ _ Hb _].
  rewrite B2 in Hs. apply rev_app_nil in Hs. destruct Hs as [Hrel _].
  unfold registered, released. rewrite B2, Hrel.
  split; [reflexivity|]. split; [reflexivity|]. split; [exact Hb|].
  split; [exact B3|]. split; [exact B4|].
  intros Hc. rewrite Hc in B1. discriminate.
Qed.

Lemma X6_witness :
  plug_init_raises broken_plug_test = true
  /\ let s := exec (AStart :: alone 5 ++ [AStop] ++ alone 6 ++ [AFinalize])
                broken_plug_executor in
     registered s = [] /\ released s = []
     /\ best_effort_teardowns (trace s) = 0
     /\ phase_runs (trace s) = []
     /\ teardown_runs (trace s) = []
     /\ pc s <> Done None.
Proof.
  split; [reflexivity|].
  apply (@X6_plug_failure_stops_the_run sample_conf broken_plug_test
           sample_start (Some sample_teardown)
           (AStart :: alone 5 ++ [AStop] ++ alone 6 ++ [AFinalize])).
  reflexivity.
Defined.

(** X7. Once an outcome has told the worker to stop (line 177), the worker
    asks the phase sequence for nothing more: in every run all outcomes the
    worker has consumed, but for the most recent one, let the test go on; and
    as long as the worker is in the loop, so does the most recent one. *)
Theorem X7_no_phase_after_a_halt conf d start tf sched :
  let s := exec sched (__init__ conf d start tf) in
  Forall nonfinal (tl (phase_runs (trace s)))
  /\ (pc s = L175 -> Forall nonfinal (phase_runs (trace s))).
Proof.
  intros s.
  pose proof (PhaseInv_reachable conf d start tf sched) as HP. fold s in HP.
  split; [exact (pi_tail HP)|].
  intros Hpc. apply (pi_open HP). rewrite Hpc. reflexivity.
Qed.

(** The sample test in its loop; and the halting test, whose first outcome
    stops the iteration, the second never being asked for. *)
Lemma X7_witness :
  (let s := exec (AStart :: alone 15) sample_executor in
   pc s = L175 /\ Forall nonfinal (phase_runs (trace s)))
  /\ (let s := exec (AStart :: alone 19) halting_executor in
      phase_runs (trace s) = [stops FAIL false]
      /\ pending s = [Yields goes_on]
      /\ Forall nonfinal (tl (phase_runs (trace s)))).
Proof.
  split; cbv zeta.
  - split; [reflexivity|].
    apply (proj2 (@X7_no_phase_after_a_halt sample_conf sample_test sample_start
                    (Some sample_teardown) (AStart :: alone 15))).
    reflexivity.
  - split; [vm_compute; reflexivity|]. split; [vm_compute; reflexivity|].
    exact (proj1 (@X7_no_phase_after_a_halt sample_conf halting_test sample_start
                    (Some sample_teardown) (AStart :: alone 19))).
Defined.

(** X8. If any phase was executed in a run, then by the time the worker has
    ended the phase executor has been stopped and after it the plugs have been
    torn down, each once. *)
Theorem X8_phases_imply_release conf d start tf sched :
  let s := exec sched (__init__ conf d start tf) in
  worker_done s = true -> phase_runs (trace s) <> [] ->
  released s = [ExecutorStop_cb; TearDownPlugs_cb].
Proof.
  intros s Hdone Hruns.
  pose proof (Inv_reachable conf d start tf sched) as H. fold s in H.
  pose proof (PhaseInv_reachable conf d start tf sched) as HP. fold s in HP.
  destruct HP as [_ _ _ [P4|P4] _]; [contradiction|].
  destruct H as [_ Hs _ _ _ Hp].
  unfold worker_done in Hdone. destruct (pc s); try discriminate.
  simpl in Hp. destruct Hp as (Hstack & _).
  rewrite Hstack, app_nil_r, P4 in Hs. unfold released. exact Hs.
Qed.

(** A run killed after its first phase. *)
Lemma X8_witness :
  let s := exec (AStart :: alone 15 ++ [AAsync Killed] ++ alone 3) sample_executor in
  worker_done s = true /\ phase_runs (trace s) <> []
  /\ released s = [ExecutorStop_cb; TearDownPlugs_cb].
Proof.
  split; [reflexivity|]. split; [vm_compute; discriminate|].
  apply (@X8_phases_imply_release sample_conf sample_test sample_start
           (Some sample_teardown)
           (AStart :: alone 15 ++ [AAsync Killed] ++ alone 3)).
  - reflexivity.
  - vm_compute. discriminate.
Defined.

Lemma teardown_runs_after newer p older :
  teardown_runs (newer ++ TeardownRun p :: older) <> [].
Proof.
  induction newer as [|e newer IH]; simpl; [discriminate|].
  destruct e; try exact IH. discriminate.
Qed.

Lemma late_worker_finalize_spec newer p older :
  late_worker_finalize (newer ++ TeardownRun p :: older) = false ->
  forall o,
    ~ In (Finalized ByWorker o) newer
    /\ ~ In (Finalized ByWorkerInterrupt o) newer.
Proof.
  induction newer as [|e newer IH]; intros H o; simpl.
  - split; intros [].
  - simpl in H.
    assert (Hrest : late_worker_finalize (newer ++ TeardownRun p :: older) = false
                    /\ e <> Finalized ByWorker o
                    /\ e <> Finalized ByWorkerInterrupt o).
    { pose proof (teardown_runs_after newer p older) as Hne.
      destruct e as [| | |w o'| | |]; try (repeat split; [exact H|discriminate..]).
      destruct w; try (repeat split; [exact H|discriminate..]);
        destruct (teardown_runs (newer ++ TeardownRun p :: older));
        try discriminate; contradiction. }
    destruct Hrest as (Hl & N1 & N2). destruct (IH Hl o) as [I1 I2].
    split; intros [Hc|Hc]; auto.
Qed.

(** X9. The worker never finalizes the record after the teardown phase has
    run: in every run, whatever the worker does after an execution of the
    teardown phase, it is no Finalize, neither the one that ends the phase
    loop nor the one of the interrupt handler.  Where the worker finalizes at
    all, it does so before the teardown phase. *)
Theorem X9_teardown_after_worker_Finalize conf d start tf sched newer p older :
  trace (exec sched (__init__ conf d start tf)) = newer ++ TeardownRun p :: older ->
  forall o,
    ~ In (Finalized ByWorker o) newer
    /\ ~ In (Finalized ByWorkerInterrupt o) newer.
Proof.
  intros Htr.
  pose proof (PhaseInv_reachable conf d start tf sched) as HP.
  destruct HP as [_ _ _ _ P5]. rewrite Htr in P5.
  exact (late_worker_finalize_spec _ _ _ P5).
Qed.

(** An undisturbed run: the worker's Finalize lies before the teardown
    phase, and only the two release actions come after it. *)
Lemma X9_witness :
  let forced := set_timeout_s 3 (WrapOrCopy sample_teardown) in
  let older := trace (exec (AStart :: alone 17) sample_executor) in
  let newer := [Released TearDownPlugs_cb; Released ExecutorStop_cb] in
  trace (exec (AStart :: alone 21) sample_executor) = newer ++ TeardownRun forced :: older
  /\ In (Finalized ByWorker PASS) older
  /\ forall o,
       ~ In (Finalized ByWorker o) newer
       /\ ~ In (Finalized ByWorkerInterrupt o) newer.
Proof.
  split; [vm_compute; reflexivity|]. split; [vm_compute; left; reflexivity|].
  apply (@X9_teardown_after_worker_Finalize sample_conf sample_test
           sample_start (Some sample_teardown) (AStart :: alone 21)
           [Released TearDownPlugs_cb; Released ExecutorStop_cb]
           (set_timeout_s 3 (WrapOrCopy sample_teardown))
           (trace (exec (AStart :: alone 17) sample_executor))).
  vm_compute. reflexivity.
Defined.

(** X10. When the record has been finalized from outside while the phases
    were still running (by [Finalize], or by the interrupt handler of
    [Wait]), the worker's own Finalize at the end of the phase sequence is
    rejected: the worker leaves [_ExecuteTestPhases] with
    TestAlreadyFinalized, ends with that error, keeps the record's outcome and
    never executes the teardown phase. *)
Theorem X10_worker_Finalize_rejected conf d start tf sched t :
  let s := exec sched (__init__ conf d start tf) in
  pc s = L175 -> pending s = [] ->
  current_state s = Some t -> is_finalized t = true ->
  pc (worker_step s) = Unwinding (Some TestAlreadyFinalized)
  /\ let s' := exec (alone 4) s in
     pc s' = Done (Some TestAlreadyFinalized)
     /\ option_map outcome (current_state s') = Some (outcome t)
     /\ teardown_runs (trace s') = [].
Proof.
  intros s Hpc Hpend Hts Hfin.
  pose proof (Inv_reachable conf d start tf sched) as H. fold s in H.
  assert (Hruns : teardown_runs (trace s) = []).
  { pose proof (inv_teardown H) as Ht. unfold teardown_ok in Ht.
    rewrite Hpc in Ht. exact Ht. }
  assert (Hstep : pc (worker_step s) = Unwinding (Some TestAlreadyFinalized)
                  /\ exit_stack_obj (worker_step s) = exit_stack_obj s
                  /\ current_state (worker_step s) = Some t
                  /\ teardown_runs (trace (worker_step s)) = teardown_runs (trace s)).
  { clear H Hruns. unfold pending, current_state in *.
    destruct s as [? dd ? ? ? [|[t0|]] ? ? p ? g ? ?]; simpl in *; try discriminate.
    subst p. injection Hts as ->.
    unfold worker_step; simpl.
    unfold try_except, next_phase, bind, gets; simpl. rewrite Hpend. simpl.
    unfold TestState_Finalize, bind, the_test_state, getattr, ts_Finalize; simpl.
    rewrite Hfin. simpl. auto. }
  destruct Hstep as (S1 & S2 & S3 & S4). split; [exact S1|].
  destruct H as [_ Hs _ _ _ Hp]. rewrite Hpc in Hp. simpl in Hp.
  apply pair_equal_spec in Hp. destruct Hp as [Hp Hreg].
  apply pair_equal_spec in Hp. destruct Hp as [_ Hobj].
  rewrite Hreg in Hs. pose proof (stack_bound _ _ Hs) as Hlen.
  unfold stack_of in Hlen.
  destruct (exit_stack_obj s) as [cbs|] eqn:Ho; [|discriminate].
  destruct (unwind_alone (worker_step s) S1 S2) as (U1 & U2 & _ & _ & U5).
  assert (Heq : exec (alone 4) s = exec (alone (S (List.length cbs))) (worker_step s)).
  { change (exec (alone 4) s) with (exec (alone 3) (worker_step s)).
    apply alone_enough; [unfold worker_done; rewrite U1; reflexivity | lia]. }
  cbv zeta. rewrite Heq. split; [exact U1|]. split.
  - rewrite U2, S3. reflexivity.
  - rewrite U5, S4. exact Hruns.
Qed.

(** [Finalize] is called while the two phases are still to run; the kill
    never comes; the worker runs both phases and then fails. *)
Lemma X10_witness :
  let s := exec (AStart :: alone 14 ++ [AFinalize] ++ alone 2) sample_executor in
  pc s = L175 /\ pending s = []
  /\ option_map outcome (current_state s) = Some (Some ABORTED)
  /\ pc (worker_step s) = Unwinding (Some TestAlreadyFinalized)
  /\ let s' := exec (alone 4) s in
     pc s' = Done (Some TestAlreadyFinalized)
     /\ option_map outcome (current_state s') = Some (Some ABORTED)
     /\ teardown_runs (trace s') = [].
Proof.
  split; [vm_compute; reflexivity|]. split; [vm_compute; reflexivity|].
  split; [vm_compute; reflexivity|].
  refine (@X10_worker_Finalize_rejected sample_conf sample_test
            sample_start (Some sample_teardown)
            (AStart :: alone 14 ++ [AFinalize] ++ alone 2)
            {| dut_id := Some "DUT-1"%string; running := false; status := None;
               outcome := Some ABORTED;
               plug_manager := {| plugs_initialized := true; plug_teardowns := 0 |} |}
            _ _ _ _); vm_compute; reflexivity.
Defined.

(** X11. A keyboard interrupt in [Wait], while a TestState is there and not
    yet finalized: [Wait] records ABORTED and raises KeyboardInterrupt to its
    caller.  It does nothing else: the worker is where it was, no kill is
    asked for, the lock and the cleanup stack are untouched.  A [Finalize]
    that follows hands back that ABORTED record and changes nothing. *)
Theorem X11_Wait_interrupt_aborts s ts :
  pc s <> NotStarted -> current_state s = Some ts -> is_finalized ts = false ->
  fst (Wait true s) = Raise KeyboardInterrupt
  /\ option_map outcome (current_state (snd (Wait true s))) = Some (Some ABORTED)
  /\ pc (snd (Wait true s)) = pc s
  /\ kill_requested (snd (Wait true s)) = kill_requested s
  /\ _lock (snd (Wait true s)) = _lock s
  /\ exit_stack_obj (snd (Wait true s)) = exit_stack_obj s
  /\ snd (Finalize (snd (Wait true s))) = snd (Wait true s)
  /\ exists ts',
       fst (Finalize (snd (Wait true s))) = Return ts'
       /\ outcome ts' = Some ABORTED.
Proof.
  intros Hp Hts Hf.
  destruct (Wait_interrupt_unfinalized s Hp Hts Hf) as (ts' & _ & Ho & HW).
  rewrite HW. unfold current_state. simpl. rewrite Ho.
  split; [reflexivity|]. split; [reflexivity|]. split; [reflexivity|].
  split; [reflexivity|]. split; [reflexivity|]. split; [reflexivity|].
  assert (Hc : current_state
                 (set_trace (Finalized ByWait ABORTED :: trace s)
                    (set_test_state (Assigned (Some ts')) s)) = Some ts')
    by reflexivity.
  destruct (Finalize_spec _ Hc) as [Hyes _].
  rewrite Hyes by (unfold is_finalized; rewrite Ho; reflexivity).
  split; [reflexivity|]. exists ts'. auto.
Qed.

Lemma X11_witness :
  let s := exec (AStart :: alone 15) sample_executor in
  pc s <> NotStarted
  /\ option_map is_finalized (current_state s) = Some false
  /\ fst (Wait true s) = Raise KeyboardInterrupt
  /\ option_map outcome (current_state (snd (Wait true s))) = Some (Some ABORTED)
  /\ pc (snd (Wait true s)) = pc s
  /\ kill_requested (snd (Wait true s)) = kill_requested s
  /\ _lock (snd (Wait true s)) = _lock s
  /\ exit_stack_obj (snd (Wait true s)) = exit_stack_obj s
  /\ snd (Finalize (snd (Wait true s))) = snd (Wait true s)
  /\ exists ts',
       fst (Finalize (snd (Wait true s))) = Return ts'
       /\ outcome ts' = Some ABORTED.
Proof.
  split; [vm_compute; discriminate|]. split; [vm_compute; reflexivity|].
  refine (@X11_Wait_interrupt_aborts (exec (AStart :: alone 15) sample_executor)
            _ _ _ _); [vm_compute; discriminate|vm_compute; reflexivity|reflexivity].
Defined.

(** X12. A [Stop] that comes after the worker has ended runs no release
    action and touches neither the record nor the handle; all it does is ask
    for the kill, unless the worker ended before it assigned the handle, when
    it fails with AttributeError. *)
Theorem X12_Stop_after_the_end conf d start tf sched :
  let s := exec sched (__init__ conf d start tf) in
  worker_done s = true ->
  Stop s = (match _exit_stack s with
            | Unassigned => (Raise AttributeError, s)
            | Assigned _ => (Return tt, set_kill_requested true s)
            end).
Proof.
  intros s Hdone.
  pose proof (Inv_reachable conf d start tf sched) as H. fold s in H.
  destruct H as [Hl _ _ _ _ Hp].
  unfold worker_done in Hdone. destruct (pc s) eqn:Hpc; try discriminate.
  simpl in Hl, Hp. destruct Hp as (Hstack & _).
  rewrite Stop_eq, Hl, Hstack. simpl.
  destruct (_exit_stack s) as [|[r|]]; reflexivity.
Qed.

Lemma X12_witness :
  let s := exec (AStart :: alone 21) sample_executor in
  worker_done s = true
  /\ Stop s = (match _exit_stack s with
               | Unassigned => (Raise AttributeError, s)
               | Assigned _ => (Return tt, set_kill_requested true s)
               end).
Proof.
  split; [reflexivity|].
  exact (@X12_Stop_after_the_end sample_conf sample_test
           sample_start (Some sample_teardown)
           (AStart :: alone 21) eq_refl).
Defined.

(** X13. A [Stop] that finds the stack installed and the lock free closes
    it: it runs every release action that is still on the stack, the most
    recently registered first, leaves the stack empty, asks for the kill, and
    leaves the handle, the registrations and the worker where they were. *)
Theorem X13_Stop_closes_the_installed_stack conf d start tf sched :
  let s := exec sched (__init__ conf d start tf) in
  _lock s = false -> _exit_stack s = Assigned (Some ExitStackObj) ->
  exists s',
    Stop s = (Return tt, s')
    /\ stack_of s' = []
    /\ released s' = released s ++ stack_of s
    /\ registered s' = registered s
    /\ kill_requested s' = true
    /\ _exit_stack s' = Assigned (Some ExitStackObj)
    /\ pc s' = pc s.
Proof.
  intros s Hl He. rewrite Stop_eq, Hl, He.
  eexists. split; [reflexivity|].
  unfold stack_of, released, registered.
  destruct (exit_stack_obj s) as [cbs|] eqn:Ho.
  - destruct (close_loop_spec s Ho) as (H1 & H2 & H3 & _ & H5 & _ & H7 & _).
    simpl. rewrite H1, H2, H3, H5, H7, rev_app_distr, rev_involutive.
    repeat split; auto.
  - simpl. rewrite Ho, app_nil_r. repeat split; auto.
Qed.

(** [Stop] while the phases execute: both release actions are run, the
    phase executor's first. *)
Lemma X13_witness :
  let s := exec (AStart :: alone 15) sample_executor in
  _lock s = false /\ _exit_stack s = Assigned (Some ExitStackObj)
  /\ stack_of s = [ExecutorStop_cb; TearDownPlugs_cb]
  /\ exists s',
       Stop s = (Return tt, s')
       /\ stack_of s' = []
       /\ released s' = released s ++ stack_of s
       /\ registered s' = registered s
       /\ kill_requested s' = true
       /\ _exit_stack s' = Assigned (Some ExitStackObj)
       /\ pc s' = pc s.
Proof.
  split; [reflexivity|]. split; [reflexivity|]. split; [reflexivity|].
  exact (@X13_Stop_closes_the_installed_stack sample_conf sample_test sample_start
           (Some sample_teardown) (AStart :: alone 15) eq_refl eq_refl).
Defined.
